(** * io_mesh_swcneuron: the SWC loader of [__init__.py]

    A shallow embedding of [SwcNeuronImporter.load_swc_file],
    [create_skeleton] and [create_node_spheres], and the properties of the
    node table, the edge list and the two derived datasets.

    Modelling conventions.
    - The importer object [self] is a record of the attributes the loader
      assigns; the methods run in a state-and-exception monad over it.
    - [self.nodes] is a Python dict whose iteration order is observable
      (edges and markers are produced by iterating it): it is an
      insertion-ordered association list, with the dict semantics of
      Python 3.7 and later (a re-assigned key keeps its place).
    - [self.index_from_id] is only queried by key: it is a [gmap Z nat].
    - A node dict [{'id': .., 'type': .., ..}] is built once per accepted line
      and never written again; it is a record value.  [self.first_node]
      aliases the dict object stored under [self.nodes[id]]; re-assigning
      [self.nodes[id]] rebinds the table slot to a new object and leaves
      the aliased one as it was.
    - The builtins [int] and [float] and the float arithmetic are an
      interface ([PyNum], over the type of float values); every theorem
      holds for all its instances.
      [CPython] is the instance used to run the loader on concrete files.
    - A line is a [string] of characters with code points below 256; the
      open file is the list of its lines. *)

From Stdlib Require Import ZArith String Ascii List Bool Lia.
From Stdlib Require Import PrimFloat SpecFloat FloatOps.
From stdpp Require Import base option list gmap.

Open Scope string_scope.
Open Scope Z_scope.
Open Scope list_scope.

(** ** Builtin conversions and float arithmetic *)

Class PyNum (pyfloat : Type) := {
  (** [int(tok)]: [None] is [ValueError] *)
  py_int : string → option Z;
  (** [float(tok)]: [None] is [ValueError] *)
  py_float : string → option pyfloat;
  fadd : pyfloat → pyfloat → pyfloat;
  fsub : pyfloat → pyfloat → pyfloat;
  fmul : pyfloat → pyfloat → pyfloat;
  (** the literal [0.5] *)
  f_half : pyfloat
}.

(** ** Strings: [str.startswith] and [str.split()] *)

(** [str.isspace] on one character, for code points below 256:
    TAB, LF, VT, FF, CR, FS, GS, RS, US, space, NEL and NBSP. *)
Definition isspace (c : ascii) : bool :=
  let n := nat_of_ascii c in
  ((9 <=? n) && (n <=? 13) || (28 <=? n) && (n <=? 32)
   || (n =? 133) || (n =? 160))%nat.

Definition startswith (line pre : string) : bool := String.prefix pre line.

(** [split_ws word s]: the fields of [s], [word] being the field under
    construction. *)
Fixpoint split_ws (word s : string) : list string :=
  match s with
  | EmptyString => if String.eqb word "" then [] else [word]
  | String c s' =>
      if isspace c
      then if String.eqb word "" then split_ws "" s'
           else word :: split_ws "" s'
      else split_ws (word ++ String c "")%string s'
  end.

(** [line.split()]: split on all runs of whitespace *)
Definition split (line : string) : list string := split_ws "" line.

(** ** Exceptions and the monad of the importer's methods *)

(** An exception is its class and what its message is built from: the
    [ValueError] of a failed conversion names the token it was given. *)
Inductive exn :=
| ValueError_int (tok : string)     (* invalid literal for int() with base 10: 'tok' *)
| ValueError_float (tok : string)   (* could not convert string to float: 'tok' *)
| ValueError_unpack                 (* x,y,z = ... on a list not of length 3 *)
| IndexError                        (* list index out of range *)
| KeyError (k : Z)
| AttributeError.                   (* attribute access on None *)

Inductive result (A : Type) :=
| Ok (a : A)
| Raise (e : exn).
Arguments Ok {A} a.
Arguments Raise {A} e.

Definition rbind {A B} (r : result A) (k : A → result B) : result B :=
  match r with
  | Ok a => k a
  | Raise e => Raise e
  end.

Declare Scope py_scope.
Delimit Scope py_scope with py.
Notation "'let!' x ':=' r 'in' k" := (rbind r (fun x => k))
  (at level 10, x name, r at level 100, k at level 200) : py_scope.
Open Scope py_scope.

(** [l[i]] on a list *)
Definition getitem {A} (l : list A) (i : nat) : result A :=
  match l !! i with
  | Some x => Ok x
  | None => Raise IndexError
  end.

(** [l[a:b]] for [0 <= a <= b] *)
Definition slice {A} (l : list A) (a b : nat) : list A :=
  take (b - a) (drop a l).

(** [[f(x) for x in l]]: the first exception ends the comprehension *)
Fixpoint comprehension {A B} (f : A → result B) (l : list A) : result (list B) :=
  match l with
  | [] => Ok []
  | x :: l' => let! y := f x in
               let! ys := comprehension f l' in
               Ok (y :: ys)
  end.

Section Model.
Context {pyfloat : Type} `{!PyNum pyfloat}.

Definition int (tok : string) : result Z :=
  match py_int tok with
  | Some n => Ok n
  | None => Raise (ValueError_int tok)
  end.

Definition float (tok : string) : result pyfloat :=
  match py_float tok with
  | Some x => Ok x
  | None => Raise (ValueError_float tok)
  end.

(** The dict built at lines 76-82. *)
Record node := {
  id : Z;
  type : Z;
  xyz : list pyfloat;
  radius : pyfloat;
  parent_id : Z
}.

(** *** Insertion-ordered dict keyed by node id *)

Abbreviation odict := (list (Z * node)).

Fixpoint dict_get (k : Z) (d : odict) : option node :=
  match d with
  | [] => None
  | (k', v) :: d' => if Z.eqb k k' then Some v else dict_get k d'
  end.

(** [d[k] = v]: replace in place when [k] is a key, append otherwise. *)
Fixpoint dict_set (k : Z) (v : node) (d : odict) : odict :=
  match d with
  | [] => [(k, v)]
  | (k', v') :: d' =>
      if Z.eqb k k' then (k, v) :: d' else (k', v') :: dict_set k v d'
  end.

Definition dict_keys (d : odict) : list Z := fst <$> d.

(** *** The importer object *)

Record self := {
  nodes : odict;
  first_node : option node;
  index_from_id : gmap Z nat;
  vertices : list (list pyfloat);
  edges : list (nat * nat)
}.

Definition set_nodes (v : odict) (s : self) : self :=
  {| nodes := v; first_node := first_node s;
     index_from_id := index_from_id s; vertices := vertices s;
     edges := edges s |}.
Definition set_first_node (v : option node) (s : self) : self :=
  {| nodes := nodes s; first_node := v;
     index_from_id := index_from_id s; vertices := vertices s;
     edges := edges s |}.
Definition set_index_from_id (v : gmap Z nat) (s : self) : self :=
  {| nodes := nodes s; first_node := first_node s;
     index_from_id := v; vertices := vertices s;
     edges := edges s |}.
Definition set_vertices (v : list (list pyfloat)) (s : self) : self :=
  {| nodes := nodes s; first_node := first_node s;
     index_from_id := index_from_id s; vertices := v;
     edges := edges s |}.
Definition set_edges (v : list (nat * nat)) (s : self) : self :=
  {| nodes := nodes s; first_node := first_node s;
     index_from_id := index_from_id s; vertices := vertices s;
     edges := v |}.

(** *** State and exceptions *)

Definition M (A : Type) : Type := self → result A * self.

Definition ret {A} (a : A) : M A := fun s => (Ok a, s).
Definition bind {A B} (m : M A) (k : A → M B) : M B :=
  fun s => match m s with
           | (Ok a, s') => k a s'
           | (Raise e, s') => (Raise e, s')
           end.
Definition get : M self := fun s => (Ok s, s).
Definition modify (f : self → self) : M unit := fun s => (Ok tt, f s).
Definition lift {A} (r : result A) : M A := fun s => (r, s).

Notation "'let*' x ':=' m 'in' k" := (bind m (fun x => k))
  (at level 10, x name, m at level 100, k at level 200) : py_scope.
Notation "m ';;' k" := (bind m (fun _ => k))
  (at level 100, k at level 200, right associativity) : py_scope.

(** [d[k]] on the two dicts *)
Definition nodes_getitem (d : odict) (k : Z) : result node :=
  match dict_get k d with
  | Some v => Ok v
  | None => Raise (KeyError k)
  end.

Definition index_getitem (d : gmap Z nat) (k : Z) : result nat :=
  match d !! k with
  | Some v => Ok v
  | None => Raise (KeyError k)
  end.

(** ** [load_swc_file] *)

(** Lines 66-75: what one line of the file converts to.  [Ok None] is
    [continue]; the conversions run in the order of the source. *)
Definition parse_line (line : string) : result (option node) :=
  if startswith line "#" then Ok None
  else
    let fields := split line in
    if (length fields <? 7)%nat then Ok None
    else
      let! f0 := getitem fields 0 in
      let! id := int f0 in
      let! f1 := getitem fields 1 in
      let! type_ := int f1 in
      let! xyz := comprehension float (slice fields 2 5) in
      let! f5 := getitem fields 5 in
      let! radius := float f5 in
      let! f6 := getitem fields 6 in
      let! parent_id := int f6 in
      Ok (Some {| id := id; type := type_; xyz := xyz;
                  radius := radius; parent_id := parent_id |}).

(** Lines 76-87: the table update for one accepted line. *)
Definition store_node (data : node) (node_count : nat) : M nat :=
  modify (fun s => set_nodes (dict_set (id data) data (nodes s)) s) ;;
  let* s := get in
  match first_node s with
  | None =>
      let* nd := lift (nodes_getitem (nodes s) (id data)) in
      modify (set_first_node (Some nd))
  | Some _ => ret tt
  end ;;
  modify (fun s => set_vertices (vertices s ++ [xyz data]) s) ;;
  modify (fun s =>
            set_index_from_id (<[id data := node_count]> (index_from_id s)) s) ;;
  ret (S node_count).

(** Lines 65-87: [for line in fh], with the local [node_count]. *)
Fixpoint read_loop (fh : list string) (node_count : nat) : M nat :=
  match fh with
  | [] => ret node_count
  | line :: fh' =>
      let* r := lift (parse_line line) in
      match r with
      | None => read_loop fh' node_count
      | Some data =>
          let* node_count' := store_node data node_count in
          read_loop fh' node_count'
      end
  end.

(** Lines 90-95: [for id, data in self.nodes.items()]. *)
Fixpoint resolve_loop (items : list (Z * node)) : M unit :=
  match items with
  | [] => ret tt
  | (id, data) :: items' =>
      let* s := get in
      match index_from_id s !! parent_id data with
      | None => resolve_loop items'      (* no parent *)
      | Some _ =>
          let* v1 := lift (index_getitem (index_from_id s) id) in
          let* v2 := lift (index_getitem (index_from_id s) (parent_id data)) in
          modify (fun s => set_edges (edges s ++ [(v1, v2)]) s) ;;
          resolve_loop items'
      end
  end.

(** Lines 58-96.  [fh] is the lines of the file at [self.filepath], as
    the open file yields them: the [OSError] of [open] and the errors of
    reading and decoding the file are outside the model.  The [print] of
    the node count is left out. *)
Definition load_swc_file (fh : list string) : M odict :=
  modify (set_nodes []) ;;
  modify (set_first_node None) ;;
  modify (set_index_from_id ∅) ;;
  modify (set_vertices []) ;;
  let* node_count := read_loop fh 0 in
  modify (set_edges []) ;;
  let* s := get in
  resolve_loop (nodes s) ;;
  let* s := get in
  ret (nodes s).

(** ** [create_node_spheres] and [create_skeleton] *)

(** Lines 106-115, with the locals [verts] and [faces]. *)
Fixpoint spheres_loop (items : list (Z * node))
    (verts : list (list pyfloat)) (faces : list (list nat))
    : result (list (list pyfloat) * list (list nat)) :=
  match items with
  | [] => Ok (verts, faces)
  | (_, data) :: items' =>
      let i := length verts in
      match xyz data with
      | [x; y; z] =>
          let r := fmul f_half (radius data) in
          let verts := (verts ++ [[fsub x r; fsub y r; z]])%list in
          let verts := (verts ++ [[fsub x r; fadd y r; z]])%list in
          let verts := (verts ++ [[fadd x r; fadd y r; z]])%list in
          let verts := (verts ++ [[fadd x r; fsub y r; z]])%list in
          let faces := (faces ++ [[i; i + 1; i + 2; i + 3]%nat])%list in
          spheres_loop items' verts faces
      | _ => Raise ValueError_unpack
      end
  end.

(** The arguments [verts, [], faces] of [swc_mesh.from_pydata]. *)
Definition create_node_spheres
    : M (list (list pyfloat) * list (list nat)) :=
  let* s := get in
  lift (spheres_loop (nodes s) [] []).

(** The arguments [self.vertices, self.edges, []] of [mesh.from_pydata];
    [None] when the table is empty. *)
Definition create_skeleton
    : M (option (list (list pyfloat) * list (nat * nat))) :=
  let* s := get in
  if (length (nodes s) <=? 0)%nat then ret None
  else ret (Some (vertices s, edges s)).

(** Lines 39-56, without the calls into the host application: the data
    handed to the two meshes.  [skeleton.parent = root] is an attribute
    assignment on [None] when [create_skeleton] returned early. *)
Definition execute (fh : list string)
    : M ((list (list pyfloat) * list (nat * nat))
         * (list (list pyfloat) * list (list nat))) :=
  load_swc_file fh ;;
  let* skeleton := create_skeleton in
  match skeleton with
  | None => lift (Raise AttributeError)
  | Some skeleton =>
      let* spheres := create_node_spheres in
      ret (skeleton, spheres)
  end.

(** The importer before its first [load_swc_file]. *)
Definition blank : self :=
  {| nodes := []; first_node := None; index_from_id := ∅;
     vertices := []; edges := [] |}.

(** ** Specification-level views of a run *)

(** The records of the accepted lines, in file order, or the first
    conversion failure. *)
Fixpoint parse_lines (fh : list string) : result (list node) :=
  match fh with
  | [] => Ok []
  | line :: fh' =>
      let! r := parse_line line in
      let! rs := parse_lines fh' in
      Ok (match r with Some data => data :: rs | None => rs end)
  end.

(** The state [store_node data node_count] leaves. *)
Definition store_state (data : node) (node_count : nat) (s : self) : self :=
  {| nodes := dict_set (id data) data (nodes s);
     first_node := match first_node s with
                   | None => Some data
                   | Some nd => Some nd
                   end;
     index_from_id := <[id data := node_count]> (index_from_id s);
     vertices := vertices s ++ [xyz data];
     edges := edges s |}.

Fixpoint table_after (rs : list node) (node_count : nat) (s : self) : self :=
  match rs with
  | [] => s
  | data :: rs' => table_after rs' (S node_count) (store_state data node_count s)
  end.

(** The exception field [i] of a data line raises on token [tok], if any:
    fields 0, 1 and 6 go through [int], fields 2 to 5 through [float]. *)
Definition conversion_error (i : nat) (tok : string) : option exn :=
  if (i =? 0)%nat || (i =? 1)%nat || (i =? 6)%nat
  then match py_int tok with
       | Some _ => None
       | None => Some (ValueError_int tok)
       end
  else match py_float tok with
       | Some _ => None
       | None => Some (ValueError_float tok)
       end.

(** The records accepted before the first conversion failure. *)
Fixpoint accepted_prefix (fh : list string) : list node :=
  match fh with
  | [] => []
  | line :: fh' =>
      match parse_line line with
      | Ok None => accepted_prefix fh'
      | Ok (Some data) => data :: accepted_prefix fh'
      | Raise _ => []
      end
  end.

(** Position of the last record carrying id [k]. *)
Fixpoint last_index (k : Z) (rs : list node) : option nat :=
  match rs with
  | [] => None
  | r :: rs' =>
      match last_index k rs' with
      | Some i => Some (S i)
      | None => if Z.eqb (id r) k then Some 0%nat else None
      end
  end.

(** The ids of a list, each at its first occurrence. *)
Fixpoint first_seen (ks : list Z) : list Z :=
  match ks with
  | [] => []
  | k :: ks' => k :: filter (λ k', k' ≠ k) (first_seen ks')
  end.

(** The edge of one table entry: present when the parent id is a key of
    the positional index. *)
Definition resolved_edge (idx : gmap Z nat) (item : Z * node)
    : option (nat * nat) :=
  match idx !! parent_id item.2 with
  | None => None
  | Some v2 => match idx !! item.1 with
               | Some v1 => Some (v1, v2)
               | None => None
               end
  end.

(** The importer after a [load_swc_file] that accepted the records [rs]. *)
Definition loaded (rs : list node) : self :=
  let t := table_after rs 0 blank in
  set_edges (omap (resolved_edge (index_from_id t)) (nodes t)) t.

(** Roots: entries whose parent id is not an id of the table. *)
Definition is_root (d : odict) (item : Z * node) : bool :=
  match dict_get (parent_id item.2) d with
  | None => true
  | Some _ => false
  end.

(** Following parent links from [data] reaches a root within [fuel] steps. *)
Fixpoint climbs_to_root (d : odict) (fuel : nat) (data : node) : bool :=
  match dict_get (parent_id data) d with
  | None => true
  | Some p => match fuel with
              | O => false
              | S fuel' => climbs_to_root d fuel' p
              end
  end.

Definition is_forest (d : odict) : bool :=
  forallb (λ item, climbs_to_root d (length d) item.2) d.

Definition no_self_loop (d : odict) : bool :=
  forallb (λ item, negb (Z.eqb (parent_id item.2) item.1)) d.

(** The four corners of the square face around a vertex. *)
Definition square_face (v : list pyfloat) (r : pyfloat) : list (list pyfloat) :=
  match v with
  | [x; y; z] => [[fsub x r; fsub y r; z]; [fsub x r; fadd y r; z];
                  [fadd x r; fadd y r; z]; [fadd x r; fsub y r; z]]
  | _ => []
  end.

End Model.

Abbreviation odict := (list (Z * node)).

Notation "'let*' x ':=' m 'in' k" := (bind m (fun x => k))
  (at level 10, x name, m at level 100, k at level 200) : py_scope.
Notation "m ';;' k" := (bind m (fun _ => k))
  (at level 100, k at level 200, right associativity) : py_scope.

(** ** The CPython instance of the conversions

    [int(tok)] and [float(tok)] on a token without whitespace (a field of
    [line.split()]), and binary64 arithmetic.  The limit Python 3.11 and
    later put on the number of digits [int] converts (4300 by default) is
    not modelled. *)

Definition is_digit (c : ascii) : bool :=
  ((48 <=? nat_of_ascii c) && (nat_of_ascii c <=? 57))%nat.

Definition digit_value (c : ascii) : Z := Z.of_nat (nat_of_ascii c) - 48.

Definition starts_with_digit (s : string) : bool :=
  match s with
  | String c _ => is_digit c
  | EmptyString => false
  end.

(** Reads a run of digits, with single underscores between digits: the
    value read so far, the number of digits, and what follows the run. *)
Fixpoint scan_digits (s : string) (acc : Z) (n : nat) : Z * nat * string :=
  match s with
  | EmptyString => (acc, n, s)
  | String c s' =>
      if is_digit c then scan_digits s' (10 * acc + digit_value c) (S n)
      else if Ascii.eqb c "_" && negb (n =? 0)%nat && starts_with_digit s'
      then scan_digits s' acc n
      else (acc, n, s)
  end.

(** An optional sign: [true] for [-]. *)
Definition strip_sign (s : string) : bool * string :=
  match s with
  | String "-" s' => (true, s')
  | String "+" s' => (false, s')
  | _ => (false, s)
  end.

Definition cpython_int (tok : string) : option Z :=
  let '(neg, s) := strip_sign tok in
  match scan_digits s 0 0 with
  | (v, S _, EmptyString) => Some (if neg then - v else v)
  | _ => None
  end.

Definition lower (c : ascii) : ascii :=
  let n := nat_of_ascii c in
  if ((65 <=? n) && (n <=? 90))%nat then ascii_of_nat (n + 32) else c.

Fixpoint lower_string (s : string) : string :=
  match s with
  | EmptyString => EmptyString
  | String c s' => String (lower c) (lower_string s')
  end.

(** The binary64 nearest to [(-1)^neg * m * 10^e10], ties to even. *)
Definition decimal_to_float (neg : bool) (m e10 : Z) : PrimFloat.float :=
  if m =? 0 then (if neg then neg_zero else zero)
  else if 0 <=? e10 then
    let v := m * 10 ^ e10 in
    SF2Prim (binary_normalize prec emax (if neg then - v else v) 0 false)
  else
    let k := - e10 in
    let sh := 1100 + 4 * k in
    let q := (m * 2 ^ sh) / 10 ^ k in
    let sticky := if (m * 2 ^ sh) mod 10 ^ k =? 0 then 0 else 1 in
    let v := 2 * q + sticky in
    SF2Prim (binary_normalize prec emax (if neg then - v else v)
               (- sh - 1) false).

Definition cpython_float (tok : string) : option PrimFloat.float :=
  let '(neg, s) := strip_sign tok in
  let l := lower_string s in
  if String.eqb l "inf" || String.eqb l "infinity"
  then Some (if neg then neg_infinity else infinity)
  else if String.eqb l "nan" then Some nan
  else
    let '(ip, ni, r1) := scan_digits s 0 0 in
    let '(fp, nf, r2) :=
      match r1 with
      | String "." r => scan_digits r 0 0
      | _ => (0, 0%nat, r1)
      end in
    if (ni + nf =? 0)%nat then None
    else
      let m := ip * 10 ^ Z.of_nat nf + fp in
      match r2 with
      | EmptyString => Some (decimal_to_float neg m (- Z.of_nat nf))
      | String c r3 =>
          if Ascii.eqb (lower c) "e" then
            let '(eneg, r4) := strip_sign r3 in
            match scan_digits r4 0 0 with
            | (ev, S _, EmptyString) =>
                Some (decimal_to_float neg m
                        ((if eneg then - ev else ev) - Z.of_nat nf))
            | _ => None
            end
          else None
      end.

#[export] Instance CPython : PyNum PrimFloat.float := {|
  py_int := cpython_int;
  py_float := cpython_float;
  fadd := PrimFloat.add;
  fsub := PrimFloat.sub;
  fmul := PrimFloat.mul;
  f_half := 0.5%float
|}.


(** A node dict with CPython values. *)
Definition node_dict (id type : Z) (x y z radius : PrimFloat.float)
    (parent_id : Z) : node (pyfloat := PrimFloat.float) :=
  {| id := id; type := type; xyz := [x; y; z];
     radius := radius; parent_id := parent_id |}.

(** ** Predicates on strings used to state what [split] returns *)

(** Every character is whitespace. *)
Fixpoint all_space (s : string) : bool :=
  match s with
  | EmptyString => true
  | String c s' => isspace c && all_space s'
  end.

(** No character is whitespace. *)
Fixpoint no_space (s : string) : bool :=
  match s with
  | EmptyString => true
  | String c s' => negb (isspace c) && no_space s'
  end.

(** ** [_neuron_name]

    [os.path.splitext(os.path.basename(self.filepath))[0]], with the
    [posixpath] functions: the separator is [/], the extension separator
    is [.]. *)

(** [s.rfind(ch)]: the index of the last [ch] in [s], or [-1]. *)
Fixpoint rfind (ch : ascii) (s : string) : Z :=
  match s with
  | EmptyString => -1
  | String c s' =>
      let i := rfind ch s' in
      if 0 <=? i then i + 1 else if Ascii.eqb c ch then 0 else -1
  end.

(** [s[i:]] for [0 <= i] *)
Fixpoint str_from (i : nat) (s : string) : string :=
  match i, s with
  | O, _ => s
  | S i', String _ s' => str_from i' s'
  | S _, EmptyString => EmptyString
  end.

(** [s[:i]] for [0 <= i] *)
Fixpoint str_upto (i : nat) (s : string) : string :=
  match i, s with
  | O, _ => EmptyString
  | S i', String c s' => String c (str_upto i' s')
  | S _, EmptyString => EmptyString
  end.

(** [posixpath.basename]: [i = p.rfind('/') + 1; return p[i:]] *)
Definition basename (p : string) : string :=
  let i := rfind "/" p + 1 in
  str_from (Z.to_nat i) p.

(** The loop of [genericpath._splitext] that skips leading dots: whether
    one of the [n] characters from [filenameIndex] on is not a dot. *)
Fixpoint name_before (p : string) (filenameIndex n : nat) : bool :=
  match n with
  | O => false
  | S n' =>
      match String.get filenameIndex p with
      | Some "."%char => name_before p (S filenameIndex) n'
      | _ => true
      end
  end.

(** [posixpath.splitext] *)
Definition splitext (p : string) : string * string :=
  let sepIndex := rfind "/" p in
  let dotIndex := rfind "." p in
  if sepIndex <? dotIndex then
    if name_before p (Z.to_nat (sepIndex + 1))
         (Z.to_nat (dotIndex - (sepIndex + 1)))
    then (str_upto (Z.to_nat dotIndex) p, str_from (Z.to_nat dotIndex) p)
    else (p, EmptyString)
  else (p, EmptyString).

(** Lines 36-37. *)
Definition _neuron_name (filepath : string) : string :=
  (splitext (basename filepath)).1.

(** Every character is a dot. *)
Fixpoint all_dots (s : string) : bool :=
  match s with
  | EmptyString => true
  | String c s' => Ascii.eqb c "." && all_dots s'
  end.

(** A small file: a comment, a root, two descendants, a short line. *)
Definition sample_file : list string :=
  ["# sample"; "1 1 0 0 0 2 -1"; "2 3 1 0 0 1 1"; "3 3 2 0 0 1 2"; "4 3"].

Definition sample_records : list (node (pyfloat := PrimFloat.float)) :=
  [node_dict 1 1 0 0 0 2 (-1); node_dict 2 3 1 0 0 1 1;
   node_dict 3 3 2 0 0 1 2].

(** * Properties *)

Section Theory.
Context {pyfloat : Type} `{!PyNum pyfloat}.
Implicit Types (d t : list (Z * @node pyfloat)) (nd data r a b c p : @node pyfloat).
Implicit Types (rs : list (@node pyfloat)) (s : @self pyfloat).
Implicit Types (items : list (Z * @node pyfloat)).

Ltac run := unfold bind, modify, get, ret, lift; simpl.

(** ** The insertion-ordered dict *)

Lemma dict_get_set_eq k (v : node) d : dict_get k (dict_set k v d) = Some v.
Proof.
  induction d as [|[k' v'] d IH]; simpl.
  - by rewrite Z.eqb_refl.
  - destruct (Z.eqb_spec k k') as [->|Hne]; simpl.
    + by rewrite Z.eqb_refl.
    + destruct (Z.eqb_spec k k'); [done | exact IH].
Qed.

Lemma dict_get_set_ne k k' (v : node) d :
  k ≠ k' → dict_get k' (dict_set k v d) = dict_get k' d.
Proof.
  intros Hne. induction d as [|[k0 v0] d IH]; simpl.
  - destruct (Z.eqb_spec k' k); [congruence | done].
  - destruct (Z.eqb_spec k k0) as [->|Hk]; simpl.
    + destruct (Z.eqb_spec k' k0); [congruence | done].
    + destruct (Z.eqb_spec k' k0); [done | exact IH].
Qed.

Lemma dict_get_Some_elem k (v : node) d : dict_get k d = Some v → (k, v) ∈ d.
Proof.
  induction d as [|[k' v'] d IH]; simpl; [done|].
  destruct (Z.eqb_spec k k') as [->|Hne].
  - intros [= ->]. left.
  - intros Hg. right. by apply IH.
Qed.

Lemma dict_get_is_Some k d : is_Some (dict_get k d) ↔ k ∈ dict_keys d.
Proof.
  induction d as [|[k' v'] d IH]; simpl.
  - split; [by intros [? ?] | by intros ?%elem_of_nil].
  - destruct (Z.eqb_spec k k') as [->|Hne].
    + split; [intros _; left | eauto].
    + rewrite IH. split; [by right|].
      intros [?|?]%elem_of_cons; [congruence | done].
Qed.

Lemma dict_keys_set k (v : node) d :
  dict_keys (dict_set k v d)
  = if decide (k ∈ dict_keys d) then dict_keys d else dict_keys d ++ [k].
Proof.
  unfold dict_keys.
  induction d as [|[k' v'] d IH]; cbn [dict_set]; rewrite ?fmap_cons.
  - by rewrite decide_False by apply not_elem_of_nil.
  - destruct (Z.eqb_spec k k') as [->|Hne]; rewrite ?fmap_cons; cbn [fst].
    + rewrite decide_True; [done | left].
    + rewrite IH. destruct (decide (k ∈ fst <$> d)) as [Hin|Hnin].
      * rewrite decide_True; [done | by right].
      * rewrite decide_False; [done|].
        intros [?|?]%elem_of_cons; [congruence | done].
Qed.

Lemma dict_elem_get k (v : node) d : NoDup (dict_keys d) → (k, v) ∈ d → dict_get k d = Some v.
Proof.
  induction d as [|[k' v'] d IH]; simpl.
  - by intros _ ?%elem_of_nil.
  - intros [Hnin Hnd]%NoDup_cons [Heq|Hin]%elem_of_cons.
    + injection Heq as -> ->. by rewrite Z.eqb_refl.
    + destruct (Z.eqb_spec k k') as [->|Hne]; [|by apply IH].
      exfalso. apply Hnin. apply list_elem_of_fmap. by exists (k', v).
Qed.

(** ** One accepted line *)

Lemma store_node_eq data n s :
  store_node data n s = (Ok (S n), store_state data n s).
Proof.
  unfold store_node, store_state. run.
  unfold nodes_getitem. rewrite dict_get_set_eq.
  destruct (first_node s) eqn:E; simpl;
    unfold set_index_from_id, set_vertices, set_first_node, set_nodes; simpl;
    by rewrite ?E.
Qed.

Lemma parse_lines_prefix fh rs :
  parse_lines fh = Ok rs → accepted_prefix fh = rs.
Proof.
  revert rs. induction fh as [|line fh IH]; simpl; intros rs.
  - by intros [= <-].
  - destruct (parse_line line) as [[data|]|e]; simpl; [| |done].
    + destruct (parse_lines fh) as [rs'|e]; simpl; [|done].
      intros [= <-]. f_equal. by apply IH.
    + destruct (parse_lines fh) as [rs'|e]; simpl; [|done].
      intros [= <-]. by apply IH.
Qed.

(** The reading loop either accepts every line or stops at the first
    failing conversion, with the table built from the lines before it. *)
Lemma read_loop_eq fh n s :
  read_loop fh n s
  = (match parse_lines fh with
     | Ok rs => Ok (n + length rs)%nat
     | Raise e => Raise e
     end, table_after (accepted_prefix fh) n s).
Proof.
  revert n s. induction fh as [|line fh IH]; intros n s; simpl.
  - run. by rewrite Nat.add_0_r.
  - unfold bind at 1, lift at 1.
    destruct (parse_line line) as [[data|]|e]; simpl; [| |done].
    + unfold bind at 1. rewrite store_node_eq, IH.
      destruct (parse_lines fh); simpl; [|done].
      by rewrite Nat.add_succ_r.
    + rewrite IH. by destruct (parse_lines fh).
Qed.

(** ** One line of the file *)

Lemma parse_line_comment line : startswith line "#" = true → parse_line line = Ok None.
Proof. intros E. unfold parse_line. by rewrite E. Qed.

Lemma parse_line_short line :
  (length (split line) < 7)%nat → parse_line line = Ok None.
Proof.
  intros Hlen. unfold parse_line. destruct (startswith line "#"); [done|].
  apply Nat.ltb_lt in Hlen. cbv zeta. by rewrite Hlen.
Qed.

(** A data line with at least seven fields is converted from its first
    seven fields, whatever follows them. *)
Lemma parse_line_fields line f0 f1 f2 f3 f4 f5 f6 extra :
  startswith line "#" = false →
  split line = f0 :: f1 :: f2 :: f3 :: f4 :: f5 :: f6 :: extra →
  parse_line line
  = let! id := int f0 in
    let! type_ := int f1 in
    let! x := float f2 in
    let! y := float f3 in
    let! z := float f4 in
    let! radius := float f5 in
    let! parent_id := int f6 in
    Ok (Some {| id := id; type := type_; xyz := [x; y; z];
                radius := radius; parent_id := parent_id |}).
Proof.
  intros Hc Hf. unfold parse_line. rewrite Hc, Hf. cbv zeta.
  cbn [length Nat.ltb Nat.leb getitem lookup list_lookup slice drop take
       Nat.sub comprehension].
  unfold rbind.
  destruct (int f0); [|done]. destruct (int f1); [|done].
  destruct (float f2); [|done]. destruct (float f3); [|done].
  destruct (float f4); [|done]. destruct (float f5); [|done].
  by destruct (int f6).
Qed.

Lemma seven_fields {A} (l : list A) :
  (7 ≤ length l)%nat →
  ∃ f0 f1 f2 f3 f4 f5 f6 extra,
    l = f0 :: f1 :: f2 :: f3 :: f4 :: f5 :: f6 :: extra.
Proof.
  intros Hlen.
  do 7 (destruct l as [|? l]; [simpl in Hlen; lia|]). eauto 10.
Qed.

Lemma parse_line_xyz line data :
  parse_line line = Ok (Some data) → length (xyz data) = 3%nat.
Proof.
  intros Hp. destruct (startswith line "#") eqn:Hc.
  { by rewrite parse_line_comment in Hp. }
  destruct (le_lt_dec 7 (length (split line))) as [Hlen|Hlen].
  2:{ by rewrite parse_line_short in Hp. }
  destruct (seven_fields _ Hlen) as (f0&f1&f2&f3&f4&f5&f6&extra&Hf).
  rewrite (parse_line_fields _ _ _ _ _ _ _ _ _ Hc Hf) in Hp.
  destruct (int f0); simpl in Hp; [|done].
  destruct (int f1); simpl in Hp; [|done].
  destruct (float f2); simpl in Hp; [|done].
  destruct (float f3); simpl in Hp; [|done].
  destruct (float f4); simpl in Hp; [|done].
  destruct (float f5); simpl in Hp; [|done].
  destruct (int f6); simpl in Hp; [|done].
  by injection Hp as <-.
Qed.

Lemma parse_lines_xyz fh rs :
  parse_lines fh = Ok rs → Forall (λ data, length (xyz data) = 3%nat) rs.
Proof.
  revert rs. induction fh as [|line fh IH]; simpl; intros rs.
  - intros [= <-]. constructor.
  - destruct (parse_line line) as [[data|]|e] eqn:Hp; simpl; [| |done].
    + destruct (parse_lines fh) as [rs'|e]; simpl; [|done].
      intros [= <-]. constructor; [by eapply parse_line_xyz | by apply IH].
    + destruct (parse_lines fh) as [rs'|e]; simpl; [|done].
      intros [= <-]. by apply IH.
Qed.

Lemma parse_lines_app fh1 fh2 :
  parse_lines (fh1 ++ fh2)
  = let! rs1 := parse_lines fh1 in
    let! rs2 := parse_lines fh2 in
    Ok (rs1 ++ rs2).
Proof.
  induction fh1 as [|line fh1 IH]; simpl.
  - by destruct (parse_lines fh2).
  - destruct (parse_line line) as [[data|]|e]; simpl; [| |done];
      rewrite IH; destruct (parse_lines fh1); simpl; [|done| |done];
      by destruct (parse_lines fh2).
Qed.

Lemma accepted_prefix_app fh1 fh2 rs1 :
  parse_lines fh1 = Ok rs1 →
  accepted_prefix (fh1 ++ fh2) = rs1 ++ accepted_prefix fh2.
Proof.
  revert rs1. induction fh1 as [|line fh1 IH]; simpl; intros rs1.
  - by intros [= <-].
  - destruct (parse_line line) as [[data|]|e]; simpl; [| |done];
      destruct (parse_lines fh1) as [rs'|]; simpl; [|done| |done];
      intros [= <-]; by rewrite (IH _ eq_refl).
Qed.

(** ** The table after a list of records *)

Lemma table_after_app rs data n s :
  table_after (rs ++ [data]) n s
  = store_state data (n + length rs) (table_after rs n s).
Proof.
  revert n s. induction rs as [|r rs IH]; intros n s; simpl.
  - by rewrite Nat.add_0_r.
  - rewrite IH. by rewrite Nat.add_succ_r.
Qed.

Lemma table_after_set_edges rs n e s :
  table_after rs n (set_edges e s) = set_edges e (table_after rs n s).
Proof.
  revert n s. induction rs as [|r rs IH]; intros n s; simpl; [done|].
  by rewrite <- IH.
Qed.

Lemma table_after_edges rs n s : edges (table_after rs n s) = edges s.
Proof.
  revert n s. induction rs as [|r rs IH]; intros n s; simpl; [done|].
  by rewrite IH.
Qed.

Lemma table_after_vertices rs n s :
  vertices (table_after rs n s) = vertices s ++ (xyz <$> rs).
Proof.
  revert n s. induction rs as [|r rs IH]; intros n s; simpl.
  - by rewrite app_nil_r.
  - rewrite IH. simpl. by rewrite <- app_assoc.
Qed.

Lemma table_after_first_node rs n s :
  first_node (table_after rs n s)
  = match first_node s with
    | Some nd => Some nd
    | None => head rs
    end.
Proof.
  revert n s. induction rs as [|r rs IH]; intros n s; simpl.
  - by destruct (first_node s).
  - rewrite IH. simpl. by destruct (first_node s).
Qed.

Lemma table_after_index rs n s k :
  index_from_id (table_after rs n s) !! k
  = match last_index k rs with
    | Some i => Some (n + i)%nat
    | None => index_from_id s !! k
    end.
Proof.
  revert n s. induction rs as [|r rs IH]; intros n s; simpl; [done|].
  rewrite IH. destruct (last_index k rs) as [i|]; simpl.
  - f_equal. lia.
  - destruct (Z.eqb_spec (id r) k) as [->|Hne].
    + by rewrite lookup_insert_eq, Nat.add_0_r.
    + by rewrite lookup_insert_ne.
Qed.

Lemma table_after_get rs n s k :
  dict_get k (nodes (table_after rs n s))
  = match last_index k rs with
    | Some i => rs !! i
    | None => dict_get k (nodes s)
    end.
Proof.
  revert n s. induction rs as [|r rs IH]; intros n s; simpl; [done|].
  rewrite IH. destruct (last_index k rs) as [i|]; simpl; [done|].
  destruct (Z.eqb_spec (id r) k) as [->|Hne].
  - by rewrite dict_get_set_eq.
  - by rewrite dict_get_set_ne.
Qed.

(** ** Positions of ids *)

Lemma last_index_None k rs :
  last_index k rs = None ↔ k ∉ id <$> rs.
Proof.
  induction rs as [|r rs IH]; cbn [last_index].
  - split; [intros _; apply not_elem_of_nil | done].
  - rewrite fmap_cons, not_elem_of_cons, <- IH.
    destruct (last_index k rs); [split; [done | by intros [_ ?]]|].
    destruct (Z.eqb_spec (id r) k) as [Heq|Hne].
    + split; [done | intros [Hn _]; congruence].
    + split; [intros _; split; [congruence | done] | done].
Qed.

Lemma last_index_Some k rs i :
  last_index k rs = Some i →
  ∃ r, rs !! i = Some r ∧ id r = k
       ∧ ∀ j c, (i < j)%nat → rs !! j = Some c → id c ≠ k.
Proof.
  revert i. induction rs as [|r rs IH]; intros i; simpl; [done|].
  destruct (last_index k rs) as [i'|] eqn:E.
  - intros [= <-]. destruct (IH i' eq_refl) as (r' & Hr' & Hid & Hlast).
    exists r'. split_and!; [done..|].
    intros [|j] c Hj; [lia|]. simpl. apply Hlast. lia.
  - destruct (Z.eqb_spec (id r) k) as [Heq|Hne]; [|done].
    intros [= <-]. exists r. split_and!; [done..|].
    intros [|j] c Hj; [lia|]. simpl. intros Hc Hid.
    apply last_index_None in E. apply E.
    apply list_elem_of_fmap. exists c. split; [done|].
    by eapply list_elem_of_lookup_2.
Qed.

Lemma last_index_intro k rs i r :
  rs !! i = Some r → id r = k →
  (∀ j c, (i < j)%nat → rs !! j = Some c → id c ≠ k) →
  last_index k rs = Some i.
Proof.
  intros Hr Hid Hlast.
  destruct (last_index k rs) as [i'|] eqn:E.
  - destruct (last_index_Some _ _ _ E) as (r' & Hr' & Hid' & Hlast').
    f_equal. destruct (lt_eq_lt_dec i i') as [[Hlt|Heq]|Hgt]; [|done|].
    + by specialize (Hlast _ _ Hlt Hr').
    + by specialize (Hlast' _ _ Hgt Hr).
  - apply last_index_None in E. exfalso. apply E.
    apply list_elem_of_fmap. exists r. split; [done|].
    by eapply list_elem_of_lookup_2.
Qed.

Lemma last_index_ge rs i r :
  rs !! i = Some r → ∃ j, last_index (id r) rs = Some j ∧ (i ≤ j)%nat.
Proof.
  intros Hr. destruct (last_index (id r) rs) as [j|] eqn:E.
  - exists j. split; [done|].
    destruct (last_index_Some _ _ _ E) as (r' & Hr' & Hid' & Hlast').
    destruct (le_lt_dec i j) as [|Hlt]; [done|].
    by specialize (Hlast' _ _ Hlt Hr).
  - apply last_index_None in E. exfalso. apply E.
    apply list_elem_of_fmap. exists r. split; [done|].
    by eapply list_elem_of_lookup_2.
Qed.

Lemma last_index_NoDup rs i r :
  NoDup (id <$> rs) → rs !! i = Some r → last_index (id r) rs = Some i.
Proof.
  intros Hnd Hr. eapply last_index_intro; [done..|].
  intros j c Hj Hc Heq.
  assert ((id <$> rs) !! i = Some (id r)) as Hi by by rewrite list_lookup_fmap, Hr.
  assert ((id <$> rs) !! j = Some (id r)) as Hj'
    by by rewrite list_lookup_fmap, Hc; simpl; rewrite Heq.
  pose proof (NoDup_lookup _ _ _ _ Hnd Hi Hj'). lia.
Qed.

(** ** Order and keys of the table *)

Lemma filter_all {A} (P : A → Prop) `{∀ x, Decision (P x)} (l : list A) :
  (∀ x, x ∈ l → P x) → filter P l = l.
Proof.
  induction l as [|a l IH]; intros Hall; [done|].
  rewrite filter_cons_True by (apply Hall; left).
  f_equal. apply IH. intros x Hx. apply Hall. by right.
Qed.

Lemma table_after_keys rs n s :
  dict_keys (nodes (table_after rs n s))
  = dict_keys (nodes s)
    ++ filter (λ k, k ∉ dict_keys (nodes s)) (first_seen (id <$> rs)).
Proof.
  revert n s. induction rs as [|r rs IH]; intros n s.
  - simpl. by rewrite app_nil_r.
  - cbn [table_after]. rewrite IH. cbn [store_state nodes].
    rewrite dict_keys_set, fmap_cons. cbn [first_seen].
    set (K := dict_keys (nodes s)). set (F := first_seen (id <$> rs)).
    destruct (decide (id r ∈ K)) as [Hin|Hnin].
    + rewrite filter_cons_False by (intros Hn; by apply Hn).
      rewrite list_filter_filter. f_equal.
      apply list_filter_iff. intros x. split; [|tauto].
      intros Hx. split; [done|]. by intros ->.
    + rewrite filter_cons_True by done.
      rewrite list_filter_filter, <- app_assoc. simpl. do 2 f_equal.
      apply list_filter_iff. intros x.
      rewrite not_elem_of_app, list_elem_of_singleton. tauto.
Qed.

Lemma first_seen_NoDup ks : NoDup (first_seen ks).
Proof.
  induction ks as [|k ks IH]; simpl; [constructor|].
  constructor.
  - rewrite list_elem_of_filter. by intros [Hne _].
  - by apply NoDup_filter.
Qed.

Lemma first_seen_id ks : NoDup ks → first_seen ks = ks.
Proof.
  induction ks as [|k ks IH]; simpl; [done|].
  intros [Hnin Hnd]%NoDup_cons. rewrite IH by done. f_equal.
  apply filter_all. intros k' Hk' ->. done.
Qed.

Lemma loaded_keys rs : dict_keys (nodes (loaded rs)) = first_seen (id <$> rs).
Proof.
  unfold loaded. cbn [set_edges nodes]. rewrite table_after_keys. simpl.
  apply filter_all. intros k _. apply not_elem_of_nil.
Qed.

Lemma loaded_keys_NoDup rs : NoDup (dict_keys (nodes (loaded rs))).
Proof. rewrite loaded_keys. apply first_seen_NoDup. Qed.

Lemma loaded_get rs k :
  dict_get k (nodes (loaded rs))
  = match last_index k rs with Some i => rs !! i | None => None end.
Proof. unfold loaded. cbn [set_edges nodes]. by rewrite table_after_get. Qed.

Lemma loaded_index rs k : index_from_id (loaded rs) !! k = last_index k rs.
Proof.
  unfold loaded. cbn [set_edges index_from_id]. rewrite table_after_index.
  by destruct (last_index k rs).
Qed.

Lemma loaded_vertices rs : vertices (loaded rs) = xyz <$> rs.
Proof. unfold loaded. cbn [set_edges vertices]. by rewrite table_after_vertices. Qed.

Lemma loaded_first_node rs : first_node (loaded rs) = head rs.
Proof. unfold loaded. cbn [set_edges first_node]. by rewrite table_after_first_node. Qed.

Lemma loaded_edges rs :
  edges (loaded rs)
  = omap (resolved_edge (index_from_id (loaded rs))) (nodes (loaded rs)).
Proof. done. Qed.

(** Every entry of the table is filed under its own id, is the last record
    of the file with that id, and has a position. *)
Lemma loaded_entry rs k data :
  (k, data) ∈ nodes (loaded rs) →
  ∃ i, last_index k rs = Some i ∧ rs !! i = Some data ∧ id data = k.
Proof.
  intros Hin. apply dict_elem_get in Hin; [|apply loaded_keys_NoDup].
  rewrite loaded_get in Hin. destruct (last_index k rs) as [i|] eqn:E; [|done].
  exists i. split_and!; [done..|].
  destruct (last_index_Some _ _ _ E) as (r & Hr & Hid & _). congruence.
Qed.

(** ** The edge loop and the whole loader *)

Lemma resolve_loop_eq items s :
  (∀ k data, (k, data) ∈ items → is_Some (index_from_id s !! k)) →
  resolve_loop items s
  = (Ok tt,
     set_edges (edges s ++ omap (resolved_edge (index_from_id s)) items) s).
Proof.
  revert s. induction items as [|[k data] items IH]; intros s Hkeys.
  - simpl. run. unfold set_edges. rewrite app_nil_r. by destruct s.
  - cbn [resolve_loop omap list_omap]. unfold bind at 1, get at 1.
    unfold resolved_edge at 1. cbn [fst snd].
    assert (∀ e, (∀ k0 data0, (k0, data0) ∈ items →
              is_Some (index_from_id (set_edges e s) !! k0))) as Hrest.
    { intros e k0 data0 Hin. apply (Hkeys k0 data0). by right. }
    destruct (index_from_id s !! parent_id data) as [v2|] eqn:Ep.
    + destruct (Hkeys k data) as [v1 Ek]; [left|].
      unfold index_getitem. run. rewrite Ek, Ep. simpl.
      rewrite IH by apply Hrest. unfold set_edges. simpl.
      by rewrite <- app_assoc.
    + by rewrite IH by (intros; eapply Hkeys; by right).
Qed.

Lemma table_keys_indexed rs k data :
  (k, data) ∈ nodes (table_after rs 0 blank) →
  is_Some (index_from_id (table_after rs 0 blank) !! k).
Proof.
  intros Hin. destruct (loaded_entry rs k data Hin) as (i & Hi & _).
  rewrite table_after_index, Hi. eauto.
Qed.

(** What [load_swc_file] returns and leaves in [self]: with every line
    convertible, the table and the state [loaded]; otherwise the first
    conversion failure, the table of the lines before it, and the edges
    [self] had. *)
Lemma load_swc_file_eq fh s0 :
  load_swc_file fh s0
  = match parse_lines fh with
    | Ok rs => (Ok (nodes (loaded rs)), loaded rs)
    | Raise e =>
        (Raise e, set_edges (edges s0) (table_after (accepted_prefix fh) 0 blank))
    end.
Proof.
  unfold load_swc_file.
  unfold bind at 1, modify at 1. unfold bind at 1, modify at 1.
  unfold bind at 1, modify at 1. unfold bind at 1, modify at 1.
  unfold bind at 1. rewrite read_loop_eq.
  replace (set_vertices [] (set_index_from_id ∅ (set_first_node None
             (set_nodes [] s0)))) with (@set_edges pyfloat (edges s0) blank) by done.
  rewrite table_after_set_edges.
  destruct (parse_lines fh) as [rs|e] eqn:E; [|done].
  rewrite (parse_lines_prefix _ _ E).
  unfold bind at 1, modify at 1. unfold bind at 1, get at 1.
  unfold bind at 1. rewrite resolve_loop_eq.
  - run. unfold loaded, set_edges. simpl. done.
  - intros k data Hin. apply (table_keys_indexed rs k data). exact Hin.
Qed.

Lemma load_swc_file_ok fh rs s0 :
  parse_lines fh = Ok rs →
  load_swc_file fh s0 = (Ok (nodes (loaded rs)), loaded rs).
Proof. intros E. by rewrite load_swc_file_eq, E. Qed.

Lemma load_swc_file_inv fh s0 t s :
  load_swc_file fh s0 = (Ok t, s) →
  ∃ rs, parse_lines fh = Ok rs ∧ s = loaded rs ∧ t = nodes s.
Proof.
  rewrite load_swc_file_eq. destruct (parse_lines fh) as [rs|e]; [|done].
  intros [= <- <-]. by exists rs.
Qed.

(** * The claims *)

(** ** Self-loops *)

(** C1 (amended): a record of the table whose [parent_id] is its own id
    gets the edge [(i, i)], [i] being the position the index gives its id:
    the resolver has no self-loop check, the id is a key of the index like
    any other. *)
Theorem self_loop_edge_emitted fh s0 t s k data :
  load_swc_file fh s0 = (Ok t, s) →
  (k, data) ∈ nodes s →
  parent_id data = k →
  ∃ i, index_from_id s !! k = Some i ∧ (i, i) ∈ edges s.
Proof.
  intros (rs & Hp & -> & ->)%load_swc_file_inv Hin Hself.
  destruct (loaded_entry _ _ _ Hin) as (i & Hi & _ & _).
  exists i. split; [by rewrite loaded_index|].
  rewrite loaded_edges. apply list_elem_of_omap. exists (k, data).
  split; [done|]. unfold resolved_edge. cbn [fst snd].
  by rewrite Hself, loaded_index, Hi.
Qed.

(** ** Duplicate ids *)

(** C2 (amended): when a later record [b] reuses the id of an earlier
    record [a] (and is the last to do so), the table has one entry for the
    id, holding [b] and standing where the id was first seen in the table
    order; the vertex slot of [a] is unchanged, but [b] gets a vertex slot
    of its own and the index of the id is remapped to that last slot. *)
Theorem duplicate_id_last_position fh rs s0 i j a b :
  parse_lines fh = Ok rs →
  rs !! i = Some a → rs !! j = Some b → (i < j)%nat → id a = id b →
  (∀ j' c, (j < j')%nat → rs !! j' = Some c → id c ≠ id b) →
  ∃ s, load_swc_file fh s0 = (Ok (nodes s), s)
       ∧ dict_get (id b) (nodes s) = Some b
       ∧ NoDup (dict_keys (nodes s))
       ∧ dict_keys (nodes s) = first_seen (id <$> rs)
       ∧ index_from_id s !! id b = Some j
       ∧ vertices s !! i = Some (xyz a)
       ∧ vertices s !! j = Some (xyz b)
       ∧ length (vertices s) = length rs.
Proof.
  intros Hp Ha Hb Hij Hid Hlast. exists (loaded rs).
  assert (last_index (id b) rs = Some j) as Hj by by eapply last_index_intro.
  split_and!.
  - by apply load_swc_file_ok.
  - by rewrite loaded_get, Hj.
  - apply loaded_keys_NoDup.
  - apply loaded_keys.
  - by rewrite loaded_index.
  - by rewrite loaded_vertices, list_lookup_fmap, Ha.
  - by rewrite loaded_vertices, list_lookup_fmap, Hb.
  - by rewrite loaded_vertices, length_fmap.
Qed.

(** ** Edge resolution *)

Lemma loaded_index_inj rs k k' i :
  index_from_id (loaded rs) !! k = Some i →
  index_from_id (loaded rs) !! k' = Some i → k = k'.
Proof.
  rewrite !loaded_index. intros Hk Hk'.
  destruct (last_index_Some _ _ _ Hk) as (r & Hr & Hid & _).
  destruct (last_index_Some _ _ _ Hk') as (r' & Hr' & Hid' & _).
  congruence.
Qed.

Lemma loaded_edge_elem rs v1 v2 :
  (v1, v2) ∈ edges (loaded rs) →
  ∃ k data, (k, data) ∈ nodes (loaded rs)
            ∧ index_from_id (loaded rs) !! k = Some v1
            ∧ index_from_id (loaded rs) !! parent_id data = Some v2.
Proof.
  rewrite loaded_edges. intros ([k data] & Hin & He)%list_elem_of_omap.
  exists k, data. unfold resolved_edge in He. cbn [fst snd] in He.
  destruct (index_from_id (loaded rs) !! parent_id data) as [w2|]; [|done].
  destruct (index_from_id (loaded rs) !! k) as [w1|]; [|done].
  by injection He as -> ->.
Qed.

(** C4: the edge list is the table, in its iteration order (ids in the
    order they were first seen in the file), with an entry contributing
    the edge (index of its id, index of its parent id) exactly when its
    parent id is a key of the index; no id value is treated specially. *)
Theorem edges_follow_table fh rs s0 t s :
  parse_lines fh = Ok rs →
  load_swc_file fh s0 = (Ok t, s) →
  dict_keys (nodes s) = first_seen (id <$> rs)
  ∧ edges s = omap (resolved_edge (index_from_id s)) (nodes s)
  ∧ ∀ k data, (k, data) ∈ nodes s →
      ∃ v1, index_from_id s !! k = Some v1
            ∧ ((∃ v2, (v1, v2) ∈ edges s)
               ↔ is_Some (index_from_id s !! parent_id data))
            ∧ ∀ v2, (v1, v2) ∈ edges s
                    ↔ index_from_id s !! parent_id data = Some v2.
Proof.
  intros Hp Hl. rewrite (load_swc_file_ok _ _ _ Hp) in Hl.
  injection Hl as <- <-. split_and!; [apply loaded_keys | done |].
  intros k data Hin.
  destruct (loaded_entry _ _ _ Hin) as (v1 & Hi & _ & _).
  rewrite <- loaded_index in Hi. exists v1. split; [done|].
  assert (∀ v2, (v1, v2) ∈ edges (loaded rs)
                ↔ index_from_id (loaded rs) !! parent_id data = Some v2) as Hiff.
  { intros v2. split.
    - intros (k' & data' & Hin' & Hk' & Hpar)%loaded_edge_elem.
      assert (k' = k) as -> by by eapply loaded_index_inj.
      assert (data' = data) as ->; [|done].
      pose proof (loaded_keys_NoDup rs) as Hnd.
      apply (dict_elem_get _ _ _ Hnd) in Hin, Hin'. congruence.
    - intros Hpar. rewrite loaded_edges. apply list_elem_of_omap.
      exists (k, data). split; [done|]. unfold resolved_edge.
      cbn [fst snd]. by rewrite Hpar, Hi. }
  split; [|exact Hiff]. split.
  - intros [v2 Hv2]. exists v2. by apply Hiff.
  - intros [v2 Hv2]. exists v2. by apply Hiff.
Qed.

(** The edges and the roots partition the table. *)
Lemma omap_filter_length {A B} (f : A → option B) (g : A → bool) (l : list A) :
  (∀ x, x ∈ l → (f x = None ↔ g x = true)) →
  (length (omap f l) + length (filter (λ x, g x = true) l))%nat = length l.
Proof.
  induction l as [|a l IH]; intros Hfg; [done|].
  rewrite filter_cons. cbn [omap list_omap].
  pose proof (Hfg a (list_elem_of_here _ _)) as Ha.
  assert (∀ x, x ∈ l → f x = None ↔ g x = true) as Hl
    by (intros x Hx; apply Hfg; by right).
  specialize (IH Hl).
  destruct (f a) as [y|]; case_decide as Hg; simpl.
  - destruct Ha as [_ Ha]. by specialize (Ha Hg).
  - lia.
  - lia.
  - destruct Ha as [Ha _]. by specialize (Ha eq_refl).
Qed.

Lemma loaded_edge_count rs :
  (length (edges (loaded rs))
   + length (filter (λ item, is_root (nodes (loaded rs)) item = true)
               (nodes (loaded rs))))%nat
  = length (nodes (loaded rs)).
Proof.
  rewrite loaded_edges. apply omap_filter_length.
  intros [k data] Hin. unfold resolved_edge, is_root. cbn [fst snd].
  destruct (loaded_entry _ _ _ Hin) as (i & Hi & _ & _).
  rewrite !loaded_index, loaded_get, Hi.
  destruct (last_index (parent_id data) rs) as [j|] eqn:Ej; [|done].
  destruct (last_index_Some _ _ _ Ej) as (r & -> & _). done.
Qed.

(** C6: on a resolved table with pairwise-distinct ids, no self-loops and
    parent links forming a forest, the number of edges is the number of
    nodes minus the number of roots. *)
Theorem forest_edge_count fh s0 t s :
  load_swc_file fh s0 = (Ok t, s) →
  NoDup (dict_keys (nodes s)) →
  no_self_loop (nodes s) = true →
  is_forest (nodes s) = true →
  length (edges s)
  = (length (nodes s)
     - length (filter (λ item, is_root (nodes s) item = true) (nodes s)))%nat.
Proof.
  intros (rs & _ & -> & _)%load_swc_file_inv _ _ _.
  pose proof (loaded_edge_count rs). lia.
Qed.

(** C7 (amended): forward references resolve for the records the table
    holds.  When a child record is on an earlier line than a record
    carrying its parent id, and the child record is the table's entry for
    its id (no later line has overwritten it), it gets its edge, from the
    index of its id to the index of the parent id: the edges are resolved
    against the index of the whole file. *)
Theorem forward_reference_resolves fh rs s0 t s i j c p :
  parse_lines fh = Ok rs →
  load_swc_file fh s0 = (Ok t, s) →
  rs !! i = Some c → rs !! j = Some p → (i < j)%nat →
  parent_id c = id p →
  dict_get (id c) (nodes s) = Some c →
  ∃ v1 v2, index_from_id s !! id c = Some v1
           ∧ index_from_id s !! id p = Some v2
           ∧ (j ≤ v2)%nat
           ∧ (v1, v2) ∈ edges s.
Proof.
  intros Hp Hl Hc Hpar Hij Hlink Htab.
  rewrite (load_swc_file_ok _ _ _ Hp) in Hl. injection Hl as <- <-.
  destruct (last_index_ge _ _ _ Hc) as (v1 & Hv1 & _).
  destruct (last_index_ge _ _ _ Hpar) as (v2 & Hv2 & Hle).
  exists v1, v2. rewrite !loaded_index. split_and!; [done..|].
  rewrite loaded_edges. apply list_elem_of_omap. exists (id c, c).
  split; [by apply dict_get_Some_elem|].
  unfold resolved_edge. cbn [fst snd].
  by rewrite Hlink, !loaded_index, Hv1, Hv2.
Qed.

(** ** The first node *)

(** C10: [first_node] is the record of the first accepted line; when a
    later line reuses that id (and is the last to do so), the table entry
    of the id holds the later record and [first_node] still holds the
    first. *)
Theorem first_node_frozen fh rs s0 r0 j r' :
  parse_lines fh = Ok (r0 :: rs) →
  rs !! j = Some r' → id r' = id r0 →
  (∀ j' c, (j < j')%nat → rs !! j' = Some c → id c ≠ id r0) →
  ∃ s, load_swc_file fh s0 = (Ok (nodes s), s)
       ∧ first_node s = Some r0
       ∧ dict_get (id r0) (nodes s) = Some r'.
Proof.
  intros Hp Hj Hid Hlast. exists (loaded (r0 :: rs)).
  split_and!; [by apply load_swc_file_ok | by rewrite loaded_first_node |].
  rewrite loaded_get.
  rewrite (last_index_intro (id r0) (r0 :: rs) (S j) r'); [done..|].
  intros [|j'] c Hlt; [lia|]. simpl. apply Hlast. lia.
Qed.

(** ** Lines with more than seven fields *)

(** C9: a data line that splits into more than seven fields is converted
    from its first seven fields alone: it is not skipped, and the result
    (the record, or the exception of the first of the seven conversions
    that fails) does not depend on the extra fields. *)
Theorem extra_fields_ignored line f0 f1 f2 f3 f4 f5 f6 extra :
  startswith line "#" = false →
  split line = f0 :: f1 :: f2 :: f3 :: f4 :: f5 :: f6 :: extra →
  extra ≠ [] →
  parse_line line ≠ Ok None
  ∧ parse_line line
    = let! id := int f0 in
      let! type_ := int f1 in
      let! x := float f2 in
      let! y := float f3 in
      let! z := float f4 in
      let! radius := float f5 in
      let! parent_id := int f6 in
      Ok (Some {| id := id; type := type_; xyz := [x; y; z];
                  radius := radius; parent_id := parent_id |}).
Proof.
  intros Hc Hf _. rewrite (parse_line_fields _ _ _ _ _ _ _ _ _ Hc Hf).
  split; [|done]. unfold rbind.
  destruct (int f0); [|done]. destruct (int f1); [|done].
  destruct (float f2); [|done]. destruct (float f3); [|done].
  destruct (float f4); [|done]. destruct (float f5); [|done].
  by destruct (int f6).
Qed.

(** ** Skipped lines and fatal lines *)

Lemma load_skip_line pre line post rs s0 :
  parse_lines pre = Ok rs → parse_line line = Ok None →
  load_swc_file (pre ++ line :: post) s0 = load_swc_file (pre ++ post) s0.
Proof.
  intros Hpre Hline. rewrite !load_swc_file_eq, !parse_lines_app.
  rewrite !(accepted_prefix_app _ _ _ Hpre), Hpre. simpl.
  rewrite Hline. simpl. by destruct (parse_lines post).
Qed.

Lemma load_fatal_line pre line post rs e s0 :
  parse_lines pre = Ok rs → parse_line line = Raise e →
  load_swc_file (pre ++ line :: post) s0
  = (Raise e, set_edges (edges s0) (table_after rs 0 blank)).
Proof.
  intros Hpre Hline. rewrite load_swc_file_eq, parse_lines_app.
  rewrite (accepted_prefix_app _ _ _ Hpre), Hpre. simpl.
  rewrite Hline. simpl. by rewrite app_nil_r.
Qed.

Lemma conversion_error_int i tok :
  (i = 0 ∨ i = 1 ∨ i = 6)%nat →
  conversion_error i tok
  = match int tok with Ok _ => None | Raise e => Some e end.
Proof.
  intros [-> | [-> | ->]]; unfold conversion_error, int; simpl;
    by destruct (py_int tok).
Qed.

Lemma conversion_error_float i tok :
  (2 ≤ i ≤ 5)%nat →
  conversion_error i tok
  = match float tok with Ok _ => None | Raise e => Some e end.
Proof.
  intros Hi. unfold conversion_error, float.
  assert ((i =? 0)%nat || (i =? 1)%nat || (i =? 6)%nat = false) as ->.
  { rewrite !orb_false_iff, !Nat.eqb_neq. lia. }
  by destruct (py_float tok).
Qed.

Lemma parse_line_first_failure line i tok e :
  startswith line "#" = false →
  (7 ≤ length (split line))%nat →
  (i < 7)%nat → split line !! i = Some tok →
  conversion_error i tok = Some e →
  (∀ j tok', (j < i)%nat → split line !! j = Some tok' →
             conversion_error j tok' = None) →
  parse_line line = Raise e.
Proof.
  intros Hc Hlen Hi Htok Herr Hprev.
  destruct (seven_fields _ Hlen) as (f0&f1&f2&f3&f4&f5&f6&extra&Hf).
  rewrite (parse_line_fields _ _ _ _ _ _ _ _ _ Hc Hf).
  rewrite Hf in Htok, Hprev.
  assert (∀ j tok', (j < i)%nat →
            (f0 :: f1 :: f2 :: f3 :: f4 :: f5 :: f6 :: extra) !! j = Some tok' →
            (j = 0 ∨ j = 1 ∨ j = 6)%nat → ∃ n, int tok' = Ok n) as Hint.
  { intros j tok' Hj Hl Hk. specialize (Hprev j tok' Hj Hl).
    rewrite conversion_error_int in Hprev by done.
    destruct (int tok'); [eauto | done]. }
  assert (∀ j tok', (j < i)%nat →
            (f0 :: f1 :: f2 :: f3 :: f4 :: f5 :: f6 :: extra) !! j = Some tok' →
            (2 ≤ j ≤ 5)%nat → ∃ x, float tok' = Ok x) as Hfloat.
  { intros j tok' Hj Hl Hk. specialize (Hprev j tok' Hj Hl).
    rewrite conversion_error_float in Hprev by done.
    destruct (float tok'); [eauto | done]. }
  clear Hprev.
  destruct i as [|[|[|[|[|[|[|i]]]]]]]; [| | | | | | | lia];
    simpl in Htok; injection Htok as ->.
  - rewrite conversion_error_int in Herr by lia.
    destruct (int tok); [done|]. by injection Herr as ->.
  - destruct (Hint 0%nat f0) as [? ->]; [lia | done | lia |].
    rewrite conversion_error_int in Herr by lia. simpl.
    destruct (int tok); [done|]. by injection Herr as ->.
  - destruct (Hint 0%nat f0) as [? ->]; [lia | done | lia |].
    destruct (Hint 1%nat f1) as [? ->]; [lia | done | lia |].
    rewrite conversion_error_float in Herr by lia. simpl.
    destruct (float tok); [done|]. by injection Herr as ->.
  - destruct (Hint 0%nat f0) as [? ->]; [lia | done | lia |].
    destruct (Hint 1%nat f1) as [? ->]; [lia | done | lia |].
    destruct (Hfloat 2%nat f2) as [? ->]; [lia | done | lia |].
    rewrite conversion_error_float in Herr by lia. simpl.
    destruct (float tok); [done|]. by injection Herr as ->.
  - destruct (Hint 0%nat f0) as [? ->]; [lia | done | lia |].
    destruct (Hint 1%nat f1) as [? ->]; [lia | done | lia |].
    destruct (Hfloat 2%nat f2) as [? ->]; [lia | done | lia |].
    destruct (Hfloat 3%nat f3) as [? ->]; [lia | done | lia |].
    rewrite conversion_error_float in Herr by lia. simpl.
    destruct (float tok); [done|]. by injection Herr as ->.
  - destruct (Hint 0%nat f0) as [? ->]; [lia | done | lia |].
    destruct (Hint 1%nat f1) as [? ->]; [lia | done | lia |].
    destruct (Hfloat 2%nat f2) as [? ->]; [lia | done | lia |].
    destruct (Hfloat 3%nat f3) as [? ->]; [lia | done | lia |].
    destruct (Hfloat 4%nat f4) as [? ->]; [lia | done | lia |].
    rewrite conversion_error_float in Herr by lia. simpl.
    destruct (float tok); [done|]. by injection Herr as ->.
  - destruct (Hint 0%nat f0) as [? ->]; [lia | done | lia |].
    destruct (Hint 1%nat f1) as [? ->]; [lia | done | lia |].
    destruct (Hfloat 2%nat f2) as [? ->]; [lia | done | lia |].
    destruct (Hfloat 3%nat f3) as [? ->]; [lia | done | lia |].
    destruct (Hfloat 4%nat f4) as [? ->]; [lia | done | lia |].
    destruct (Hfloat 5%nat f5) as [? ->]; [lia | done | lia |].
    rewrite conversion_error_int in Herr by lia. simpl.
    destruct (int tok); [done|]. by injection Herr as ->.
Qed.

(** C5 (amended): a line that starts with [#] or splits into fewer than
    seven fields is skipped without a trace; on a data line with at least
    seven fields, the first of the seven conversions that fails (in field
    order; [int] for fields 0, 1, 6 and [float] for fields 2 to 5) raises
    its [ValueError], which ends [load_swc_file] with no table returned and
    no edges computed.  The exception names the token that failed to
    convert; it carries neither the line number nor the line. *)
Theorem skipped_or_fatal_line pre line post rs s0 :
  parse_lines pre = Ok rs →
  ((startswith line "#" = true ∨ (length (split line) < 7)%nat) →
     parse_line line = Ok None
     ∧ load_swc_file (pre ++ line :: post) s0
       = load_swc_file (pre ++ post) s0)
  ∧ (startswith line "#" = false → (7 ≤ length (split line))%nat →
     ∀ i tok e,
       (i < 7)%nat → split line !! i = Some tok →
       conversion_error i tok = Some e →
       (∀ j tok', (j < i)%nat → split line !! j = Some tok' →
                  conversion_error j tok' = None) →
       (e = ValueError_int tok ∨ e = ValueError_float tok)
       ∧ parse_line line = Raise e
       ∧ load_swc_file (pre ++ line :: post) s0
         = (Raise e, set_edges (edges s0) (table_after rs 0 blank))).
Proof.
  intros Hpre. split.
  - intros Hskip.
    assert (parse_line line = Ok None) as Hline.
    { destruct Hskip; [by apply parse_line_comment | by apply parse_line_short]. }
    split; [done | by eapply load_skip_line].
  - intros Hc Hlen i tok e Hi Htok Herr Hprev.
    assert (parse_line line = Raise e) as Hline
      by by eapply parse_line_first_failure.
    split_and!; [| done | by apply load_fatal_line].
    unfold conversion_error in Herr.
    destruct ((i =? 0)%nat || (i =? 1)%nat || (i =? 6)%nat).
    + destruct (py_int tok); [done|]. left. congruence.
    + destruct (py_float tok); [done|]. right. congruence.
Qed.

(** ** Running the import again *)

Lemma execute_after_load fh :
  ∃ k : @self pyfloat →
        result ((list (list pyfloat) * list (nat * nat))
                * (list (list pyfloat) * list (list nat))) * self,
    (∀ s, (k s).2 = s)
    ∧ ∀ s0, execute fh s0
            = match load_swc_file fh s0 with
              | (Ok _, s) => k s
              | (Raise e, s) => (Raise e, s)
              end.
Proof.
  exists (bind create_skeleton (λ skeleton,
            match skeleton with
            | None => lift (Raise AttributeError)
            | Some skeleton =>
                bind create_node_spheres (λ spheres, ret (skeleton, spheres))
            end)).
  split; [|done].
  intros s. unfold create_skeleton, create_node_spheres. run.
  destruct (length (nodes s) <=? 0)%nat; simpl; [done|].
  by destruct (spheres_loop (nodes s) [] []).
Qed.

(** C8: the import is a function of the file alone.  Its outcome (the
    vertex list and edge list handed to the skeleton mesh and the vertex
    and face lists handed to the marker mesh, or the exception) is the
    same from every state of the importer, and running it again on the
    state a first run left gives the same outcome and the same state. *)
Theorem execute_twice fh s0 s0' :
  (execute fh s0).1 = (execute fh s0').1
  ∧ execute fh (execute fh s0).2 = execute fh s0.
Proof.
  destruct (execute_after_load fh) as (k & Hk & He).
  rewrite (He s0), (He s0'), !load_swc_file_eq.
  destruct (parse_lines fh) as [rs|e] eqn:E.
  - split; [done|]. by rewrite Hk, He, load_swc_file_eq, E.
  - split; [done|]. simpl. by rewrite He, load_swc_file_eq, E.
Qed.

(** ** The marker faces *)

Lemma dict_set_fresh k (v : node) d :
  k ∉ dict_keys d → dict_set k v d = d ++ [(k, v)].
Proof.
  unfold dict_keys. induction d as [|[k' v'] d IH]; [done|].
  rewrite fmap_cons, not_elem_of_cons. cbn [fst dict_set]. intros [Hne Hnin].
  destruct (Z.eqb_spec k k'); [done|]. simpl. f_equal. by apply IH.
Qed.

Lemma table_after_nodes_fresh rs n s :
  NoDup (dict_keys (nodes s) ++ (id <$> rs)) →
  nodes (table_after rs n s) = nodes s ++ ((λ r, (id r, r)) <$> rs).
Proof.
  revert n s. induction rs as [|r rs IH]; intros n s Hnd.
  - simpl. by rewrite app_nil_r.
  - cbn [table_after]. rewrite fmap_cons in Hnd.
    assert (id r ∉ dict_keys (nodes s)) as Hfresh.
    { apply NoDup_app in Hnd as (_ & Hdisj & _). intros Hin.
      apply (Hdisj _ Hin). left. }
    rewrite IH; cbn [store_state nodes]; rewrite dict_set_fresh by done.
    + by rewrite <- app_assoc.
    + unfold dict_keys in *. rewrite fmap_app, <- app_assoc. exact Hnd.
Qed.

Lemma loaded_nodes_distinct rs :
  NoDup (id <$> rs) → nodes (loaded rs) = (λ r, (id r, r)) <$> rs.
Proof.
  intros Hnd. unfold loaded. cbn [set_edges nodes].
  by rewrite table_after_nodes_fresh.
Qed.

Lemma spheres_loop_eq items verts faces :
  Forall (λ item, length (xyz item.2) = 3%nat) items →
  spheres_loop items verts faces
  = Ok (verts ++ concat ((λ item, square_face (xyz item.2)
                                    (fmul f_half (radius item.2))) <$> items),
        faces ++ ((λ j, [length verts + 4 * j; length verts + 4 * j + 1;
                         length verts + 4 * j + 2; length verts + 4 * j + 3]%nat)
                    <$> seq 0 (length items))).
Proof.
  revert verts faces. induction items as [|[k data] items IH];
    intros verts faces Hall.
  - simpl. by rewrite !app_nil_r.
  - apply Forall_cons in Hall as [Hlen Hall]. cbn [snd] in Hlen.
    cbn [spheres_loop]. destruct (xyz data) as [|x [|y [|z [|]]]] eqn:Exyz;
      try discriminate Hlen.
    rewrite IH by done. rewrite !length_app. cbn [length].
    rewrite fmap_cons, concat_cons. cbn [snd]. rewrite Exyz.
    cbn [square_face seq]. rewrite fmap_cons, <- fmap_S_seq, <- list_fmap_compose.
    f_equal. f_equal.
    + by rewrite <- !app_assoc.
    + rewrite <- app_assoc. cbn [app]. f_equal. f_equal.
      * repeat (f_equal; try lia).
      * apply list_fmap_ext. intros _ j _. simpl. repeat (f_equal; try lia).
Qed.

Lemma concat_block {A} (l : list (list A)) i blk :
  Forall (λ x, length x = 4%nat) l → l !! i = Some blk →
  take 4 (drop (4 * i) (concat l)) = blk.
Proof.
  revert i. induction l as [|x l IH]; intros i Hall Hi; [done|].
  apply Forall_cons in Hall as [Hx Hall]. rewrite concat_cons.
  destruct i as [|i]; simpl in Hi.
  - injection Hi as ->. by apply take_app_length'.
  - replace (4 * S i)%nat with (4 + 4 * i)%nat by lia.
    rewrite drop_app_add' by done. by apply IH.
Qed.

(** C3 (amended): when the accepted records have pairwise-distinct ids,
    there is one marker face per skeleton vertex, and marker [i] is the
    square of half-width [0.5 * radius] around skeleton vertex [i]: face
    [i] is made of the marker vertices [4i .. 4i+3], which are the four
    corners around [vertices[i]]. *)
Theorem markers_aligned_distinct_ids fh rs s0 t s :
  parse_lines fh = Ok rs →
  load_swc_file fh s0 = (Ok t, s) →
  NoDup (id <$> rs) →
  ∃ verts faces,
    create_node_spheres s = (Ok (verts, faces), s)
    ∧ length faces = length (vertices s)
    ∧ ∀ i v, vertices s !! i = Some v →
        ∃ data, nodes s !! i = Some (id data, data)
          ∧ xyz data = v
          ∧ faces !! i = Some [4 * i; 4 * i + 1; 4 * i + 2; 4 * i + 3]%nat
          ∧ take 4 (drop (4 * i) verts)
            = square_face v (fmul f_half (radius data))
          ∧ length (square_face v (fmul f_half (radius data))) = 4%nat.
Proof.
  intros Hp Hl Hnd. rewrite (load_swc_file_ok _ _ _ Hp) in Hl.
  injection Hl as <- <-.
  pose proof (parse_lines_xyz _ _ Hp) as Hxyz.
  pose proof (loaded_nodes_distinct _ Hnd) as Hnodes.
  assert (Forall (λ item : Z * node, length (xyz item.2) = 3%nat)
            (nodes (loaded rs))) as Hall.
  { rewrite Hnodes. apply Forall_fmap. eapply Forall_impl; [exact Hxyz|done]. }
  eexists _, _. split.
  { unfold create_node_spheres. run. by rewrite (spheres_loop_eq _ _ _ Hall). }
  rewrite !app_nil_l. cbn [length]. split.
  { by rewrite length_fmap, length_seq, Hnodes, loaded_vertices, !length_fmap. }
  intros i v. rewrite loaded_vertices, list_lookup_fmap.
  destruct (rs !! i) as [data|] eqn:Hi; [|done]. intros [= <-].
  assert (length (square_face (xyz data) (fmul f_half (radius data))) = 4%nat)
    as Hsq.
  { rewrite Forall_forall in Hxyz.
    specialize (Hxyz data (list_elem_of_lookup_2 _ _ _ Hi)).
    by destruct (xyz data) as [|x [|y [|z [|]]]]. }
  exists data. split_and!; [| done | | | done].
  - by rewrite Hnodes, list_lookup_fmap, Hi.
  - rewrite list_lookup_fmap, lookup_seq_lt.
    + simpl. repeat (f_equal; try lia).
    + rewrite Hnodes, length_fmap. by eapply lookup_lt_Some.
  - apply concat_block.
    + apply Forall_fmap. eapply Forall_impl; [exact Hall|].
      intros [k r] Hr. unfold compose. cbn [snd] in *.
      by destruct (xyz r) as [|x [|y [|z [|]]]].
    + by rewrite Hnodes, list_lookup_fmap, list_lookup_fmap, Hi.
Qed.

End Theory.

(** * Further properties of the loader and the two mesh builders *)

Section Further.
Context {pyfloat : Type} `{!PyNum pyfloat}.
Implicit Types (d t : list (Z * @node pyfloat)) (nd data r a b c p : @node pyfloat).
Implicit Types (rs : list (@node pyfloat)) (s : @self pyfloat).
Implicit Types (items : list (Z * @node pyfloat)).

Ltac run := unfold bind, modify, get, ret, lift; simpl.

(** ** Which exceptions the loader raises *)

Lemma parse_line_raise line e :
  parse_line line = Raise e →
  ∃ tok, tok ∈ take 7 (split line)
         ∧ (e = ValueError_int tok ∨ e = ValueError_float tok).
Proof.
  intros Hp. destruct (startswith line "#") eqn:Hc.
  { by rewrite parse_line_comment in Hp. }
  destruct (le_lt_dec 7 (length (split line))) as [Hlen|Hlen].
  2:{ by rewrite parse_line_short in Hp. }
  destruct (seven_fields _ Hlen) as (f0&f1&f2&f3&f4&f5&f6&extra&Hf).
  rewrite (parse_line_fields _ _ _ _ _ _ _ _ _ Hc Hf) in Hp.
  rewrite Hf. cbn [take]. unfold rbind, int, float in Hp.
  destruct (py_int f0).
  2:{ injection Hp as <-. exists f0. split; [set_solver | by left]. }
  destruct (py_int f1).
  2:{ injection Hp as <-. exists f1. split; [set_solver | by left]. }
  destruct (py_float f2).
  2:{ injection Hp as <-. exists f2. split; [set_solver | by right]. }
  destruct (py_float f3).
  2:{ injection Hp as <-. exists f3. split; [set_solver | by right]. }
  destruct (py_float f4).
  2:{ injection Hp as <-. exists f4. split; [set_solver | by right]. }
  destruct (py_float f5).
  2:{ injection Hp as <-. exists f5. split; [set_solver | by right]. }
  destruct (py_int f6); [done|].
  injection Hp as <-. exists f6. split; [set_solver | by left].
Qed.

Lemma parse_lines_raise fh e :
  parse_lines fh = Raise e → ∃ line, line ∈ fh ∧ parse_line line = Raise e.
Proof.
  induction fh as [|line fh IH]; simpl; [done|].
  destruct (parse_line line) as [r|e'] eqn:Hl; simpl.
  - destruct (parse_lines fh) as [rs|e'']; simpl; [done|].
    intros [= <-]. destruct (IH eq_refl) as (l & Hin & Hp).
    exists l. split; [by right | done].
  - intros [= <-]. exists line. split; [left | done].
Qed.

(** X1: whatever lines the file yields, [load_swc_file] never raises
    [IndexError] or [KeyError]: the subscripts [fields[0]] to [fields[6]],
    [self.nodes[id]] and the two [self.index_from_id[..]] always succeed.
    A [ValueError] raised for a conversion names one of the first seven
    fields of a line of the file. *)
Theorem load_swc_file_subscripts_safe fh s0 :
  (load_swc_file fh s0).1 ≠ Raise IndexError
  ∧ (∀ k, (load_swc_file fh s0).1 ≠ Raise (KeyError k))
  ∧ ∀ tok,
      ((load_swc_file fh s0).1 = Raise (ValueError_int tok)
       ∨ (load_swc_file fh s0).1 = Raise (ValueError_float tok)) →
      ∃ line, line ∈ fh ∧ tok ∈ take 7 (split line).
Proof.
  rewrite load_swc_file_eq. destruct (parse_lines fh) as [rs|e] eqn:E.
  { split_and!; [done | done | by intros tok [?|?]]. }
  cbn [fst]. destruct (parse_lines_raise _ _ E) as (line & Hin & Hl).
  destruct (parse_line_raise _ _ Hl) as (tok' & Htok & [-> | ->]).
  - split_and!; [done | done |].
    intros tok [[= <-] | [=]]. eauto.
  - split_and!; [done | done |].
    intros tok [[=] | [= <-]]. eauto.
Qed.

(** ** The index, the table and the vertex list *)

(** X2: after a successful load the index and the table have the same
    keys, and the index of an id is the position of the vertex that holds
    the coordinates of the table entry of that id (three of them). *)
Theorem index_points_at_entry_vertex fh s0 t s :
  load_swc_file fh s0 = (Ok t, s) →
  (∀ k, is_Some (index_from_id s !! k) ↔ is_Some (dict_get k (nodes s)))
  ∧ ∀ k i, index_from_id s !! k = Some i →
      ∃ data, dict_get k (nodes s) = Some data
              ∧ id data = k
              ∧ vertices s !! i = Some (xyz data)
              ∧ length (xyz data) = 3%nat.
Proof.
  intros (rs & Hp & -> & ->)%load_swc_file_inv. split.
  - intros k. rewrite loaded_index, loaded_get.
    destruct (last_index k rs) as [i|] eqn:E; [|done].
    destruct (last_index_Some _ _ _ E) as (r & -> & _). split; eauto.
  - intros k i. rewrite loaded_index, loaded_get. intros E. rewrite E.
    destruct (last_index_Some _ _ _ E) as (r & Hr & Hid & _).
    exists r. split_and!; [done..| |].
    + by rewrite loaded_vertices, list_lookup_fmap, Hr.
    + pose proof (parse_lines_xyz _ _ Hp) as Hxyz.
      rewrite Forall_forall in Hxyz. apply Hxyz.
      by eapply list_elem_of_lookup_2.
Qed.

(** X3: every edge is sound.  Its two ends are positions of accepted
    lines (so they are within the vertex list), the record at the first end
    names the id of the record at the second end as its parent, and both
    records are the entries the table holds for their ids. *)
Theorem edges_link_child_to_parent fh rs s0 t s v1 v2 :
  parse_lines fh = Ok rs →
  load_swc_file fh s0 = (Ok t, s) →
  (v1, v2) ∈ edges s →
  ∃ c p, rs !! v1 = Some c ∧ rs !! v2 = Some p
         ∧ parent_id c = id p
         ∧ dict_get (id c) (nodes s) = Some c
         ∧ dict_get (id p) (nodes s) = Some p
         ∧ (v1 < length (vertices s))%nat
         ∧ (v2 < length (vertices s))%nat.
Proof.
  intros Hp Hl. rewrite (load_swc_file_ok _ _ _ Hp) in Hl.
  injection Hl as <- <-.
  intros (k & data & Hin & Hk & Hpar)%loaded_edge_elem.
  rewrite loaded_index in Hk, Hpar.
  destruct (loaded_entry _ _ _ Hin) as (i & Hi & Hdata & Hid).
  assert (i = v1) as -> by congruence.
  destruct (last_index_Some _ _ _ Hpar) as (p & Hrp & Hidp & _).
  exists data, p. rewrite !loaded_get, loaded_vertices, length_fmap.
  rewrite Hid, Hidp, Hi, Hpar.
  split_and!; [done | done | done | done | done | |];
    by eapply lookup_lt_Some.
Qed.

Lemma omap_fst_NoDup {A} (f : A → option (nat * nat)) (g : A → nat) (l : list A) :
  NoDup (g <$> l) →
  (∀ x e, x ∈ l → f x = Some e → e.1 = g x) →
  NoDup (fst <$> omap f l).
Proof.
  induction l as [|x l IH]; intros Hnd Hfg; [constructor|].
  rewrite fmap_cons in Hnd. apply NoDup_cons in Hnd as [Hx Hnd].
  assert (NoDup (fst <$> omap f l)) as IH'.
  { apply IH; [done|]. intros y e Hy. apply Hfg. by right. }
  cbn [omap list_omap]. destruct (f x) as [e|] eqn:Ex; [|done].
  rewrite fmap_cons. constructor; [|done].
  intros (e' & He' & (y & Hy & Ey)%list_elem_of_omap)%list_elem_of_fmap.
  apply Hx. apply list_elem_of_fmap. exists y. split; [|done].
  rewrite <- (Hfg x e (list_elem_of_here _ _) Ex).
  rewrite <- (Hfg y e' (list_elem_of_further _ _ _ Hy) Ey). done.
Qed.

(** X4: a table entry contributes at most one edge: no two edges start
    at the same vertex, and there are no more edges than table entries. *)
Theorem one_edge_per_entry fh s0 t s :
  load_swc_file fh s0 = (Ok t, s) →
  NoDup (fst <$> edges s) ∧ (length (edges s) ≤ length (nodes s))%nat.
Proof.
  intros (rs & Hp & -> & ->)%load_swc_file_inv. split.
  - rewrite loaded_edges.
    pose (idx := λ item : Z * @node pyfloat,
            default 0%nat (index_from_id (loaded rs) !! item.1)).
    assert (∀ x y, x ∈ nodes (loaded rs) → y ∈ nodes (loaded rs) →
                   idx x = idx y → x.1 = y.1) as Hinj.
    { intros [k1 d1] [k2 d2] H1 H2. unfold idx. cbn [fst].
      destruct (loaded_entry _ _ _ H1) as (i1 & Hi1 & _).
      destruct (loaded_entry _ _ _ H2) as (i2 & Hi2 & _).
      rewrite !loaded_index, Hi1, Hi2. simpl. intros <-.
      rewrite <- loaded_index in Hi1, Hi2. by eapply loaded_index_inj. }
    apply (omap_fst_NoDup _ idx).
    + apply NoDup_fmap_2_strong; [|apply (NoDup_fmap_1 fst), loaded_keys_NoDup].
      intros x y Hx Hy Hxy. pose proof (Hinj x y Hx Hy Hxy) as Hk.
      pose proof (loaded_keys_NoDup rs) as Hnd.
      destruct x as [k1 d1], y as [k2 d2]. cbn [fst] in Hk. subst k2.
      apply (dict_elem_get _ _ _ Hnd) in Hx, Hy. congruence.
    + intros [k data] e Hin. unfold resolved_edge, idx. cbn [fst snd].
      destruct (index_from_id (loaded rs) !! parent_id data); [|done].
      destruct (index_from_id (loaded rs) !! k); [|done]. by intros [= <-].
  - pose proof (loaded_edge_count rs). lia.
Qed.

(** X5: the only source of an edge from a vertex to itself is a record
    that names its own id as parent: when no table entry does, every edge
    joins two different vertices. *)
Theorem no_loop_edge_without_self_parent fh s0 t s v1 v2 :
  load_swc_file fh s0 = (Ok t, s) →
  no_self_loop (nodes s) = true →
  (v1, v2) ∈ edges s →
  v1 ≠ v2.
Proof.
  intros (rs & Hp & -> & ->)%load_swc_file_inv Hno.
  intros (k & data & Hin & Hk & Hpar)%loaded_edge_elem ->.
  pose proof (loaded_index_inj _ _ _ _ Hk Hpar) as Heq.
  unfold no_self_loop in Hno. rewrite forallb_forall in Hno.
  apply list_elem_of_In in Hin. specialize (Hno _ Hin). cbn [fst snd] in Hno.
  rewrite <- Heq, Z.eqb_refl in Hno. done.
Qed.

Lemma first_seen_length ks : (length (first_seen ks) ≤ length ks)%nat.
Proof.
  induction ks as [|k ks IH]; simpl; [done|].
  pose proof (length_filter (λ k', k' ≠ k) (first_seen ks)). lia.
Qed.

Lemma first_seen_full ks :
  length (first_seen ks) = length ks → NoDup ks.
Proof.
  induction ks as [|k ks IH]; simpl; [constructor|]. intros Hlen.
  pose proof (length_filter (λ k', k' ≠ k) (first_seen ks)) as Hf.
  pose proof (first_seen_length ks) as Hs.
  assert (NoDup ks) as Hnd by (apply IH; lia).
  constructor; [|done]. intros Hin.
  rewrite (first_seen_id _ Hnd) in Hf, Hlen.
  assert (length (filter (λ k', k' ≠ k) ks) < length ks)%nat; [|lia].
  apply (length_filter_lt _ _ k); [done | by intros Hne].
Qed.

(** X6: the table has one entry per distinct id, filed under that id, so
    it is never longer than the vertex list, and it is as long exactly
    when the accepted lines have pairwise-distinct ids. *)
Theorem table_size_and_vertices fh rs s0 t s :
  parse_lines fh = Ok rs →
  load_swc_file fh s0 = (Ok t, s) →
  NoDup (dict_keys (nodes s))
  ∧ (∀ k data, (k, data) ∈ nodes s → id data = k)
  ∧ length (vertices s) = length rs
  ∧ (length (nodes s) ≤ length (vertices s))%nat
  ∧ (length (nodes s) = length (vertices s) ↔ NoDup (id <$> rs)).
Proof.
  intros Hp Hl. rewrite (load_swc_file_ok _ _ _ Hp) in Hl.
  injection Hl as <- <-.
  assert (length (nodes (loaded rs)) = length (first_seen (id <$> rs))) as Hn.
  { rewrite <- loaded_keys. unfold dict_keys. by rewrite length_fmap. }
  rewrite Hn, loaded_vertices, length_fmap.
  pose proof (first_seen_length (id <$> rs)) as Hle.
  rewrite length_fmap in Hle.
  split_and!; [apply loaded_keys_NoDup | | done | done |].
  - intros k data Hin. by destruct (loaded_entry _ _ _ Hin) as (i & _ & _ & ?).
  - split.
    + intros Hlen. apply first_seen_full. by rewrite length_fmap.
    + intros Hnd. by rewrite (first_seen_id _ Hnd), length_fmap.
Qed.

(** ** Concatenated files and failed loads *)

Lemma last_index_app k rs1 rs2 :
  last_index k (rs1 ++ rs2)
  = match last_index k rs2 with
    | Some i => Some (length rs1 + i)%nat
    | None => last_index k rs1
    end.
Proof.
  induction rs1 as [|r rs1 IH]; simpl.
  - by destruct (last_index k rs2).
  - rewrite IH. by destruct (last_index k rs2).
Qed.

(** X7: loading the concatenation of two files.  The vertex list is the
    concatenation of the two vertex lists; an id that occurs in the second
    file gets its index there shifted by the number of vertices of the
    first file and its table entry from the second file; any other id keeps
    the index and the entry the first file gives it. *)
Theorem load_concatenation fh1 fh2 rs1 rs2 s0 k :
  parse_lines fh1 = Ok rs1 →
  parse_lines fh2 = Ok rs2 →
  vertices (load_swc_file (fh1 ++ fh2) s0).2
  = vertices (load_swc_file fh1 s0).2 ++ vertices (load_swc_file fh2 s0).2
  ∧ index_from_id (load_swc_file (fh1 ++ fh2) s0).2 !! k
    = match index_from_id (load_swc_file fh2 s0).2 !! k with
      | Some i => Some (length (vertices (load_swc_file fh1 s0).2) + i)%nat
      | None => index_from_id (load_swc_file fh1 s0).2 !! k
      end
  ∧ dict_get k (nodes (load_swc_file (fh1 ++ fh2) s0).2)
    = match dict_get k (nodes (load_swc_file fh2 s0).2) with
      | Some data => Some data
      | None => dict_get k (nodes (load_swc_file fh1 s0).2)
      end.
Proof.
  intros H1 H2.
  assert (parse_lines (fh1 ++ fh2) = Ok (rs1 ++ rs2)) as H12
    by by rewrite parse_lines_app, H1, H2.
  rewrite (load_swc_file_ok _ _ _ H1), (load_swc_file_ok _ _ _ H2),
    (load_swc_file_ok _ _ _ H12). cbn [snd].
  rewrite !loaded_vertices, !loaded_index, !loaded_get, last_index_app.
  rewrite fmap_app, length_fmap. split_and!; [done | done |].
  destruct (last_index k rs2) as [i|] eqn:E.
  - destruct (last_index_Some _ _ _ E) as (r & Hr & _).
    rewrite Hr. rewrite lookup_app_r by lia.
    by replace (length rs1 + i - length rs1)%nat with i by lia.
  - destruct (last_index k rs1) as [i|] eqn:E1; [|done].
    destruct (last_index_Some _ _ _ E1) as (r & Hr & _).
    rewrite Hr. by apply lookup_app_l_Some.
Qed.

(** X8: a load that raises leaves the importer half updated: table,
    index, vertex list and first node are those of the lines accepted
    before the failing one, and [self.edges] is still what it was before
    the call. *)
Theorem failed_load_state fh s0 e :
  (load_swc_file fh s0).1 = Raise e →
  edges (load_swc_file fh s0).2 = edges s0
  ∧ vertices (load_swc_file fh s0).2 = xyz <$> accepted_prefix fh
  ∧ first_node (load_swc_file fh s0).2 = head (accepted_prefix fh)
  ∧ (∀ k, index_from_id (load_swc_file fh s0).2 !! k
          = last_index k (accepted_prefix fh))
  ∧ (∀ k, dict_get k (nodes (load_swc_file fh s0).2)
          = last_index k (accepted_prefix fh)
            ≫= λ i, accepted_prefix fh !! i).
Proof.
  rewrite load_swc_file_eq. destruct (parse_lines fh) as [rs|e']; [done|].
  intros _. cbn [snd set_edges edges vertices first_node index_from_id nodes].
  rewrite table_after_vertices, table_after_first_node.
  split_and!; [done | done | done | |].
  - intros k. rewrite table_after_index.
    by destruct (last_index k (accepted_prefix fh)).
  - intros k. rewrite table_after_get.
    by destruct (last_index k (accepted_prefix fh)).
Qed.

(** ** The two mesh builders *)

Lemma loaded_nodes_nil rs : nodes (loaded rs) = [] ↔ rs = [].
Proof.
  split; [|by intros ->].
  intros Hn. pose proof (loaded_keys rs) as Hk. rewrite Hn in Hk.
  by destruct rs.
Qed.

Lemma loaded_nodes_xyz rs :
  Forall (λ data, length (xyz data) = 3%nat) rs →
  Forall (λ item : Z * @node pyfloat, length (xyz item.2) = 3%nat)
    (nodes (loaded rs)).
Proof.
  intros Hxyz. apply Forall_forall. intros [k data] Hin.
  destruct (loaded_entry _ _ _ Hin) as (i & _ & Hi & _).
  rewrite Forall_forall in Hxyz. apply Hxyz. by eapply list_elem_of_lookup_2.
Qed.

Lemma concat_blocks_length {A} (l : list (list A)) :
  Forall (λ x, length x = 4%nat) l → length (concat l) = (4 * length l)%nat.
Proof.
  induction 1 as [|x l Hx _ IH]; [done|].
  rewrite concat_cons, length_app. simpl. lia.
Qed.

Lemma square_face_length (v : list pyfloat) (half_width : pyfloat) :
  length v = 3%nat → length (square_face v half_width) = 4%nat.
Proof. intros Hv. by destruct v as [|x [|y [|z [|]]]]. Qed.

(** What [create_node_spheres] returns on a table whose coordinate lists
    all have three elements. *)
Lemma create_node_spheres_eq s :
  Forall (λ item : Z * @node pyfloat, length (xyz item.2) = 3%nat) (nodes s) →
  create_node_spheres s
  = (Ok (concat ((λ item, square_face (xyz item.2)
                            (fmul f_half (radius item.2))) <$> nodes s),
         (λ j, [4 * j; 4 * j + 1; 4 * j + 2; 4 * j + 3]%nat)
           <$> seq 0 (length (nodes s))), s).
Proof.
  intros Hall. unfold create_node_spheres. run.
  rewrite (spheres_loop_eq _ _ _ Hall). simpl. do 3 f_equal.
Qed.

Lemma create_skeleton_loaded rs :
  create_skeleton (loaded rs)
  = (Ok (match rs with
         | [] => None
         | _ :: _ => Some (vertices (loaded rs), edges (loaded rs))
         end), loaded rs).
Proof.
  unfold create_skeleton, bind, get, ret.
  destruct rs as [|r rs]; [done|].
  destruct (nodes (loaded (r :: rs))) eqn:En; [|done].
  by apply loaded_nodes_nil in En.
Qed.

(** X9: [create_skeleton] leaves the importer as it is; after a
    successful load it returns [None] exactly when no line was accepted,
    and otherwise the loader's vertex and edge lists. *)
Theorem create_skeleton_after_load fh rs s0 t s :
  parse_lines fh = Ok rs →
  load_swc_file fh s0 = (Ok t, s) →
  create_skeleton s
  = (Ok (match rs with
         | [] => None
         | _ :: _ => Some (vertices s, edges s)
         end), s).
Proof.
  intros Hp Hl. rewrite (load_swc_file_ok _ _ _ Hp) in Hl.
  injection Hl as <- <-. apply create_skeleton_loaded.
Qed.

(** X10: on the state a successful load leaves, [create_node_spheres]
    never raises and leaves the importer as it is; it returns four
    vertices of three coordinates and one face per table entry, face [j]
    being [[4j, 4j+1, 4j+2, 4j+3]], so every face index is within the
    vertex list and no vertex is shared by two faces. *)
Theorem create_node_spheres_shape fh s0 t s :
  load_swc_file fh s0 = (Ok t, s) →
  ∃ verts faces,
    create_node_spheres s = (Ok (verts, faces), s)
    ∧ length verts = (4 * length (nodes s))%nat
    ∧ Forall (λ v, length v = 3%nat) verts
    ∧ faces = (λ j, [4 * j; 4 * j + 1; 4 * j + 2; 4 * j + 3]%nat)
                <$> seq 0 (length (nodes s))
    ∧ ∀ face i, face ∈ faces → i ∈ face → (i < length verts)%nat.
Proof.
  intros (rs & Hp & -> & ->)%load_swc_file_inv.
  pose proof (loaded_nodes_xyz _ (parse_lines_xyz _ _ Hp)) as Hall.
  eexists _, _. split; [by apply create_node_spheres_eq|].
  assert (length (concat ((λ item : Z * @node pyfloat,
                             square_face (xyz item.2)
                               (fmul f_half (radius item.2)))
                            <$> nodes (loaded rs)))
          = (4 * length (nodes (loaded rs)))%nat) as Hlen.
  { rewrite concat_blocks_length, length_fmap; [done|].
    apply Forall_fmap. eapply Forall_impl; [exact Hall|].
    intros item Hi. by apply square_face_length. }
  split_and!; [done | | done |].
  - apply Forall_concat, Forall_fmap. eapply Forall_impl; [exact Hall|].
    intros [k data] Hi. unfold compose. cbn [snd] in *.
    destruct (xyz data) as [|x [|y [|z [|]]]]; try done.
    cbn [square_face]. by repeat constructor.
  - intros face i (j & -> & Hj)%list_elem_of_fmap Hi. rewrite Hlen.
    apply elem_of_seq in Hj. set_unfold in Hi. lia.
Qed.

(** X11: whatever the ids, the marker of a table entry sits on the
    skeleton vertex the index gives its id: the four marker vertices of
    table entry [j] are the corners of the square of half-width
    [0.5 * radius] around [vertices[index_from_id[id]]]. *)
Theorem marker_centred_at_indexed_vertex fh s0 t s j k data :
  load_swc_file fh s0 = (Ok t, s) →
  nodes s !! j = Some (k, data) →
  ∃ verts faces i v,
    create_node_spheres s = (Ok (verts, faces), s)
    ∧ index_from_id s !! k = Some i
    ∧ vertices s !! i = Some v
    ∧ take 4 (drop (4 * j) verts) = square_face v (fmul f_half (radius data)).
Proof.
  intros (rs & Hp & -> & ->)%load_swc_file_inv Hj.
  pose proof (loaded_nodes_xyz _ (parse_lines_xyz _ _ Hp)) as Hall.
  destruct (loaded_entry rs k data (list_elem_of_lookup_2 _ _ _ Hj))
    as (i & Hi & Hdata & _).
  eexists _, _, i, (xyz data).
  split_and!; [by apply create_node_spheres_eq | by rewrite loaded_index | |].
  - by rewrite loaded_vertices, list_lookup_fmap, Hdata.
  - apply concat_block.
    + apply Forall_fmap. eapply Forall_impl; [exact Hall|].
      intros item Hitem. by apply square_face_length.
    + by rewrite list_lookup_fmap, Hj.
Qed.

(** ** The whole import *)

Lemma parse_lines_all_skipped fh :
  Forall (λ line, startswith line "#" = true
                  ∨ (length (split line) < 7)%nat) fh →
  parse_lines (pyfloat := pyfloat) fh = Ok [].
Proof.
  induction 1 as [|line fh Hline _ IH]; [done|]. simpl.
  assert (parse_line (pyfloat := pyfloat) line = Ok None) as ->.
  { destruct Hline; [by apply parse_line_comment | by apply parse_line_short]. }
  simpl. by rewrite IH.
Qed.

Lemma execute_eq fh rs s0 :
  parse_lines fh = Ok rs →
  execute fh s0
  = match rs with
    | [] => (Raise AttributeError, loaded rs)
    | _ :: _ =>
        (Ok ((vertices (loaded rs), edges (loaded rs)),
             (concat ((λ item, square_face (xyz item.2)
                                 (fmul f_half (radius item.2)))
                        <$> nodes (loaded rs)),
              (λ j, [4 * j; 4 * j + 1; 4 * j + 2; 4 * j + 3]%nat)
                <$> seq 0 (length (nodes (loaded rs))))), loaded rs)
    end.
Proof.
  intros Hp. unfold execute. unfold bind at 1.
  rewrite (load_swc_file_ok _ _ _ Hp). unfold bind at 1.
  rewrite create_skeleton_loaded.
  destruct rs as [|r rs]; [done|]. unfold bind at 1.
  rewrite create_node_spheres_eq; [done|].
  apply loaded_nodes_xyz. by eapply parse_lines_xyz.
Qed.

(** X12: a file without a single data line (empty, or only comment
    lines and lines of fewer than seven fields) loads into an empty
    table, and [execute] then raises [AttributeError]: [create_skeleton]
    returned [None], and [skeleton.parent] is assigned. *)
Theorem execute_without_data_line fh s0 :
  Forall (λ line, startswith line "#" = true
                  ∨ (length (split line) < 7)%nat) fh →
  ∃ s, execute fh s0 = (Raise AttributeError, s)
       ∧ load_swc_file fh s0 = (Ok [], s)
       ∧ nodes s = [] ∧ vertices s = [] ∧ edges s = []
       ∧ first_node s = None.
Proof.
  intros Hp%parse_lines_all_skipped. exists (loaded []).
  split_and!; [by rewrite (execute_eq _ _ _ Hp) | | done..].
  by rewrite (load_swc_file_ok _ _ _ Hp).
Qed.

(** X13: when every line converts and at least one is accepted,
    [execute] succeeds: the skeleton mesh gets the loader's vertices (one
    per accepted line) and edges, the marker mesh four vertices and one
    face per table entry, and the importer is left in the state the load
    produced. *)
Theorem execute_with_data fh rs s0 :
  parse_lines fh = Ok rs → rs ≠ [] →
  ∃ s verts faces,
    execute fh s0 = (Ok ((vertices s, edges s), (verts, faces)), s)
    ∧ load_swc_file fh s0 = (Ok (nodes s), s)
    ∧ length (vertices s) = length rs
    ∧ length verts = (4 * length (nodes s))%nat
    ∧ length faces = length (nodes s).
Proof.
  intros Hp Hne. exists (loaded rs). eexists _, _.
  rewrite (execute_eq _ _ _ Hp). destruct rs as [|r rs]; [done|].
  split_and!; [done | by apply load_swc_file_ok | | |].
  - by rewrite loaded_vertices, length_fmap.
  - rewrite concat_blocks_length, length_fmap; [done|].
    apply Forall_fmap.
    eapply Forall_impl; [apply loaded_nodes_xyz; by eapply parse_lines_xyz|].
    intros item Hi. by apply square_face_length.
  - by rewrite length_fmap, length_seq.
Qed.

(** X14: [execute] never raises [IndexError], [KeyError] or the
    [ValueError] of unpacking [x, y, z]: no subscript fails and every
    coordinate list of the table has three elements.  It catches nothing:
    an exception of [load_swc_file] ends [execute] with that exception,
    the importer being left as the load left it. *)
Theorem execute_no_lookup_error fh s0 :
  (execute fh s0).1 ≠ Raise IndexError
  ∧ (∀ k, (execute fh s0).1 ≠ Raise (KeyError k))
  ∧ (execute fh s0).1 ≠ Raise ValueError_unpack
  ∧ ∀ e, (load_swc_file fh s0).1 = Raise e →
         execute fh s0 = (Raise e, (load_swc_file fh s0).2).
Proof.
  destruct (parse_lines (pyfloat := pyfloat) fh) as [rs|e'] eqn:Hp.
  - rewrite (execute_eq _ _ _ Hp), (load_swc_file_ok _ _ _ Hp).
    destruct rs as [|r rs]; split_and!; done.
  - assert (execute fh s0 = (Raise e', (load_swc_file fh s0).2)
            ∧ (load_swc_file fh s0).1 = Raise e') as [Hex Hl].
    { unfold execute. unfold bind at 1. by rewrite load_swc_file_eq, Hp. }
    rewrite Hex, Hl. cbn [fst].
    destruct (parse_lines_raise _ _ Hp) as (line & _ & Hline).
    destruct (parse_line_raise _ _ Hline) as (tok & _ & [-> | ->]);
      (split_and!; [done | done | done |]); by intros e [= <-].
Qed.

End Further.

(** * [line.split()] *)

Lemma append_cons a (s1 s2 : string) :
  (String a s1 ++ s2)%string = String a (s1 ++ s2)%string.
Proof. reflexivity. Qed.

Lemma append_nil (s : string) : ("" ++ s)%string = s.
Proof. reflexivity. Qed.

Lemma append_snoc (word tok : string) c :
  ((word ++ String c "") ++ tok)%string = (word ++ String c tok)%string.
Proof.
  induction word as [|a word IH]; rewrite ?append_cons, ?append_nil;
    [done | by f_equal].
Qed.

Lemma append_empty_r (s : string) : (s ++ "")%string = s.
Proof.
  induction s as [|a s IH]; rewrite ?append_cons, ?append_nil;
    [done | by f_equal].
Qed.

Lemma no_space_snoc word c :
  no_space word = true → isspace c = false →
  no_space (word ++ String c "") = true.
Proof.
  intros Hw Hc. induction word as [|a word IH];
    rewrite ?append_cons, ?append_nil; simpl in *.
  - by rewrite Hc.
  - apply andb_true_iff in Hw as [-> Hw]. by rewrite IH.
Qed.

Lemma split_ws_fields word s :
  no_space word = true →
  Forall (λ f, f ≠ "" ∧ no_space f = true) (split_ws word s).
Proof.
  revert word. induction s as [|c s IH]; intros word Hw; simpl.
  - destruct (String.eqb_spec word ""); [constructor|].
    by repeat constructor.
  - destruct (isspace c) eqn:Hc.
    + destruct (String.eqb_spec word ""); [by apply IH|].
      constructor; [done | by apply IH].
    + apply IH. by apply no_space_snoc.
Qed.

(** X15: the fields [split] returns are never empty and contain no
    whitespace character, and a line of whitespace only has no field. *)
Theorem split_fields_clean line :
  Forall (λ f, f ≠ "" ∧ no_space f = true) (split line)
  ∧ (all_space line = true → split line = []).
Proof.
  split; [by apply split_ws_fields|].
  unfold split. induction line as [|c line IH]; simpl; [done|].
  intros [-> Hl]%andb_true_iff. by apply IH.
Qed.

Lemma split_ws_pad pad s :
  all_space pad = true → split_ws "" (pad ++ s) = split_ws "" s.
Proof.
  induction pad as [|c pad IH]; rewrite ?append_cons, ?append_nil; simpl;
    [done|].
  intros [-> Hp]%andb_true_iff. by apply IH.
Qed.

Lemma split_ws_token word tok rest :
  no_space tok = true →
  split_ws word (tok ++ rest) = split_ws (word ++ tok) rest.
Proof.
  revert word. induction tok as [|c tok IH]; intros word Ht;
    rewrite ?append_cons, ?append_nil; simpl in *.
  - by rewrite append_empty_r.
  - apply andb_true_iff in Ht as [Hc Ht]. apply negb_true_iff in Hc.
    rewrite Hc, IH by done. by rewrite append_snoc.
Qed.

(** X16: [split] reads a line token by token.  Leading whitespace is
    dropped, a maximal run of non-whitespace characters is the first field,
    and the remaining fields are those of what follows it; so runs of
    spaces or tabs between fields and a trailing newline make no
    difference. *)
Theorem split_first_token pad tok rest :
  all_space pad = true →
  tok ≠ "" → no_space tok = true →
  (rest = "" ∨ ∃ c rest', rest = String c rest' ∧ isspace c = true) →
  split (pad ++ tok ++ rest) = tok :: split rest.
Proof.
  intros Hpad Hne Htok Hrest. unfold split.
  rewrite (split_ws_pad _ _ Hpad), (split_ws_token _ _ _ Htok), append_nil.
  destruct Hrest as [-> | (c & rest' & -> & Hc)]; simpl.
  - by destruct (String.eqb_spec tok "").
  - rewrite Hc. by destruct (String.eqb_spec tok "").
Qed.

(** * [_neuron_name] *)

Lemma append_assoc (s1 s2 s3 : string) :
  ((s1 ++ s2) ++ s3)%string = (s1 ++ (s2 ++ s3))%string.
Proof.
  induction s1 as [|a s1 IH]; rewrite ?append_cons, ?append_nil;
    [done | by f_equal].
Qed.

Lemma length_append (s1 s2 : string) :
  String.length (s1 ++ s2) = (String.length s1 + String.length s2)%nat.
Proof.
  induction s1 as [|a s1 IH]; rewrite ?append_cons, ?append_nil; simpl;
    [done | by f_equal].
Qed.

Lemma rfind_bounds ch s : -1 ≤ rfind ch s < Z.of_nat (String.length s).
Proof.
  induction s as [|c s IH]; simpl; [lia|].
  destruct (Z.leb_spec 0 (rfind ch s)); [lia|].
  destruct (Ascii.eqb c ch); lia.
Qed.

Lemma rfind_app_none ch s1 s2 :
  rfind ch s2 = -1 → rfind ch (s1 ++ s2) = rfind ch s1.
Proof.
  intros H2. induction s1 as [|c s1 IH]; rewrite ?append_cons, ?append_nil;
    simpl; [done | by rewrite IH].
Qed.

Lemma rfind_app_hit ch s1 s2 :
  rfind ch s2 = -1 →
  rfind ch (s1 ++ String ch s2) = Z.of_nat (String.length s1).
Proof.
  intros H2. induction s1 as [|c s1 IH]; rewrite ?append_cons, ?append_nil.
  - simpl. rewrite H2. simpl. by rewrite Ascii.eqb_refl.
  - cbn [rfind String.length]. rewrite IH.
    destruct (Z.leb_spec 0 (Z.of_nat (String.length s1))); lia.
Qed.

Lemma rfind_none_app ch s1 s2 :
  rfind ch (s1 ++ s2) = -1 → rfind ch s1 = -1 ∧ rfind ch s2 = -1.
Proof.
  induction s1 as [|c s1 IH]; rewrite ?append_cons, ?append_nil; simpl;
    [done|].
  pose proof (rfind_bounds ch (s1 ++ s2)).
  destruct (Z.leb_spec 0 (rfind ch (s1 ++ s2))); [lia|].
  assert (rfind ch (s1 ++ s2) = -1) as Hn by lia.
  destruct (IH Hn) as [-> ->]. by destruct (Ascii.eqb c ch).
Qed.

(** A string with an occurrence of [ch] splits at the last one. *)
Lemma rfind_split ch s :
  0 ≤ rfind ch s →
  ∃ s1 s2, s = (s1 ++ String ch s2)%string ∧ rfind ch s2 = -1
           ∧ rfind ch s = Z.of_nat (String.length s1).
Proof.
  induction s as [|c s IH]; simpl; [lia|].
  destruct (Z.leb_spec 0 (rfind ch s)) as [Hge|Hlt].
  - intros _. destruct (IH Hge) as (s1 & s2 & -> & H2 & Hlen).
    exists (String c s1), s2. rewrite append_cons. simpl.
    split_and!; [done | done | lia].
  - destruct (Ascii.eqb_spec c ch) as [->|]; [|lia]. intros _.
    exists "", s. rewrite append_nil. simpl.
    pose proof (rfind_bounds ch s). split_and!; [done | lia | done].
Qed.

Lemma str_from_length (s1 s2 : string) :
  str_from (String.length s1) (s1 ++ s2) = s2.
Proof.
  induction s1 as [|a s1 IH]; rewrite ?append_cons, ?append_nil; simpl;
    [by destruct s2 | done].
Qed.

Lemma str_upto_length (s1 s2 : string) :
  str_upto (String.length s1) (s1 ++ s2) = s1.
Proof.
  induction s1 as [|a s1 IH]; rewrite ?append_cons, ?append_nil; simpl;
    [by destruct s2 | by f_equal].
Qed.

Lemma str_upto_from i (s : string) :
  (str_upto i s ++ str_from i s)%string = s.
Proof.
  revert s. induction i as [|i IH]; intros [|c s]; simpl; try done.
  rewrite append_cons. by f_equal.
Qed.

Lemma name_before_cons c p i n :
  name_before (String c p) (S i) n = name_before p i n.
Proof. revert i. induction n as [|n IH]; intros i; simpl; [done|]. by rewrite IH. Qed.

Lemma name_before_stem stem rest :
  name_before (stem ++ rest) 0 (String.length stem) = negb (all_dots stem).
Proof.
  induction stem as [|c stem IH]; rewrite ?append_cons, ?append_nil; [done|].
  cbn [String.length name_before String.get all_dots].
  rewrite name_before_cons, IH.
  destruct (Ascii.eqb_spec c ".") as [->|Hne]; [done|].
  destruct c as [[] [] [] [] [] [] [] []]; try done.
Qed.

Lemma basename_of dir base :
  rfind "/" base = -1 →
  (dir = "" ∨ ∃ d, dir = (d ++ "/")%string) →
  basename (dir ++ base) = base.
Proof.
  intros Hb [-> | [d ->]]; unfold basename.
  - rewrite append_nil, Hb. done.
  - rewrite append_assoc, append_cons, append_nil, (rfind_app_hit _ _ _ Hb).
    replace (Z.to_nat (Z.of_nat (String.length d) + 1))
      with (String.length (d ++ "/")) by (rewrite length_append; simpl; lia).
    rewrite <- (str_from_length (d ++ "/") base) at 2.
    by rewrite append_assoc, append_cons, append_nil.
Qed.

Lemma basename_no_sep p : rfind "/" (basename p) = -1.
Proof.
  unfold basename. pose proof (rfind_bounds "/" p).
  destruct (Z.leb_spec 0 (rfind "/" p)) as [Hge|Hlt].
  - destruct (rfind_split _ _ Hge) as (s1 & s2 & -> & H2 & ->).
    replace (Z.to_nat (Z.of_nat (String.length s1) + 1))
      with (String.length (s1 ++ "/")) by (rewrite length_append; simpl; lia).
    replace (s1 ++ String "/" s2)%string with ((s1 ++ "/") ++ s2)%string
      by by rewrite append_assoc, append_cons, append_nil.
    by rewrite str_from_length.
  - replace (rfind "/" p) with (-1) by lia. simpl. lia.
Qed.

(** X18: the name of a neuron is the last component of the path without
    its extension.  For a path [dir/stem.ext] (or [stem.ext] alone), with
    no separator in [stem] and [ext] and no dot in [ext], the name is
    [stem]; unless [stem] is empty or made of dots only, in which case the
    dot does not start an extension and the name is the whole component. *)
Theorem neuron_name_of_path dir stem ext :
  (dir = "" ∨ ∃ d, dir = (d ++ "/")%string) →
  rfind "/" stem = -1 → rfind "/" ext = -1 → rfind "." ext = -1 →
  _neuron_name (dir ++ stem ++ "." ++ ext)
  = if all_dots stem then (stem ++ "." ++ ext)%string else stem.
Proof.
  intros Hdir Hs He Hd. unfold _neuron_name.
  assert (rfind "/" (stem ++ "." ++ ext) = -1) as Hbase.
  { rewrite append_cons, append_nil, rfind_app_none; [done|].
    simpl. by rewrite He. }
  rewrite (basename_of _ _ Hbase Hdir). unfold splitext. rewrite Hbase.
  rewrite append_cons, append_nil, (rfind_app_hit _ _ _ Hd).
  replace (-1 <? Z.of_nat (String.length stem)) with true
    by (symmetry; apply Z.ltb_lt; lia).
  replace (Z.to_nat (-1 + 1)) with 0%nat by lia.
  replace (Z.to_nat (Z.of_nat (String.length stem) - (-1 + 1)))
    with (String.length stem) by lia.
  rewrite name_before_stem, Nat2Z.id.
  destruct (all_dots stem); [done|]. simpl. apply str_upto_length.
Qed.

(** X19: whatever the path, the name contains no separator, it is the
    start of the last path component, and what it leaves out of that
    component is empty or an extension: a part that starts with a dot and
    has no other dot. *)
Theorem neuron_name_within_basename filepath :
  rfind "/" (_neuron_name filepath) = -1
  ∧ ∃ dir ext,
      filepath = (dir ++ basename filepath)%string
      ∧ basename filepath = (_neuron_name filepath ++ ext)%string
      ∧ (ext = "" ∨ ∃ ext', ext = String "." ext' ∧ rfind "." ext' = -1).
Proof.
  assert (∃ ext, basename filepath = (_neuron_name filepath ++ ext)%string
                 ∧ (ext = "" ∨ ∃ ext', ext = String "." ext'
                                       ∧ rfind "." ext' = -1))
    as (ext & Hext & Hshape).
  { unfold _neuron_name, splitext.
    set (base := basename filepath).
    destruct (rfind "/" base <? rfind "." base) eqn:Hlt.
    2:{ exists "". by rewrite append_empty_r; auto. }
    destruct (name_before _ _ _).
    2:{ exists "". by rewrite append_empty_r; auto. }
    exists (str_from (Z.to_nat (rfind "." base)) base). cbn [fst].
    split; [by rewrite str_upto_from|]. right.
    apply Z.ltb_lt in Hlt. pose proof (rfind_bounds "/" base).
    destruct (rfind_split "." base) as (s1 & s2 & Hb & H2 & Hlen); [lia|].
    exists s2. rewrite Hlen, Nat2Z.id. rewrite Hb at 1.
    by rewrite str_from_length. }
  split.
  - pose proof (basename_no_sep filepath) as Hb. rewrite Hext in Hb.
    by apply rfind_none_app in Hb as [? _].
  - exists (str_upto (Z.to_nat (rfind "/" filepath + 1)) filepath), ext.
    split_and!; [|done..]. unfold basename. by rewrite str_upto_from.
Qed.

(** * Runs on concrete files, with the CPython conversions *)

Lemma self_loop_edge_emitted_witness :
  ∃ i, index_from_id (load_swc_file ["1 1 0 0 0 1 1"] blank).2 !! 1 = Some i
       ∧ (i, i) ∈ edges (load_swc_file ["1 1 0 0 0 1 1"] blank).2.
Proof.
  apply (self_loop_edge_emitted ["1 1 0 0 0 1 1"] blank
           [(1, node_dict 1 1 0 0 0 1 1)]
           (load_swc_file ["1 1 0 0 0 1 1"] blank).2
           1 (node_dict 1 1 0 0 0 1 1)).
  - vm_compute. reflexivity.
  - vm_compute. left.
  - reflexivity.
Defined.

(** C1, as stated, fails: the one-line file [1 1 0 0 0 1 1] has a record
    that is its own parent, and its edge [(0, 0)] is in [self.edges]. *)
Lemma self_loop_edge_counterexample :
  let s := (load_swc_file ["1 1 0 0 0 1 1"] blank).2 in
  (∃ data, (1, data) ∈ nodes s ∧ parent_id data = 1)
  ∧ index_from_id s !! 1 = Some 0%nat
  ∧ edges s = [(0, 0)%nat].
Proof.
  vm_compute. split_and!; [|reflexivity..].
  eexists. split; [left | reflexivity].
Qed.

Lemma duplicate_id_last_position_witness :
  ∃ s, load_swc_file ["5 1 0 0 0 1 -1"; "5 1 9 9 9 2 -1"] blank
       = (Ok (nodes s), s)
       ∧ dict_get 5 (nodes s)
         = Some (node_dict 5 1 9 9 9 2 (-1))
       ∧ dict_keys (nodes s) = [5]
       ∧ index_from_id s !! 5 = Some 1%nat
       ∧ vertices s = [[0; 0; 0]; [9; 9; 9]]%float.
Proof.
  destruct (duplicate_id_last_position
              ["5 1 0 0 0 1 -1"; "5 1 9 9 9 2 -1"]
              [(node_dict 5 1 0 0 0 1 (-1));
               (node_dict 5 1 9 9 9 2 (-1))]
              blank 0%nat 1%nat
              (node_dict 5 1 0 0 0 1 (-1))
              (node_dict 5 1 9 9 9 2 (-1)))
    as (s & Hl & Hg & _ & Hk & Hi & Hv0 & Hv1 & Hlen).
  - vm_compute. reflexivity.
  - reflexivity.
  - reflexivity.
  - lia.
  - reflexivity.
  - intros [|[|j']] c Hj Hc; [lia | lia | discriminate Hc].
  - exists s. split_and!; [done..|].
    destruct (vertices s) as [|v0 [|v1 [|]]]; try discriminate Hlen.
    by injection Hv0 as ->; injection Hv1 as ->.
Defined.

(** C2, as stated, fails on its own scenario: after [5 1 0 0 0 1 -1] and
    [5 1 9 9 9 2 -1] the index maps id 5 to position 1, not to the
    first-seen position 0, and the vertex list has two slots for the one
    table entry. *)
Lemma duplicate_id_counterexample :
  let s := (load_swc_file ["5 1 0 0 0 1 -1"; "5 1 9 9 9 2 -1"] blank).2 in
  index_from_id s !! 5 = Some 1%nat
  ∧ index_from_id s !! 5 ≠ Some 0%nat
  ∧ length (nodes s) = 1%nat
  ∧ length (vertices s) = 2%nat.
Proof. vm_compute. split_and!; [reflexivity | discriminate | reflexivity..]. Qed.

(** C3, as stated, fails on a file with a duplicate id: two vertices are
    stored for the one table entry, and the marker mesh gets one face. *)
Lemma markers_misaligned_counterexample :
  ∃ verts faces,
    (create_node_spheres
       (load_swc_file ["5 1 0 0 0 1 -1"; "5 1 9 9 9 2 -1"] blank).2).1
    = Ok (verts, faces)
    ∧ length (vertices
                (load_swc_file ["5 1 0 0 0 1 -1"; "5 1 9 9 9 2 -1"] blank).2)
      = 2%nat
    ∧ length faces = 1%nat.
Proof.
  eexists _, _. split_and!; [vm_compute; reflexivity | reflexivity | reflexivity].
Qed.

Lemma markers_aligned_distinct_ids_witness :
  ∃ verts faces,
    create_node_spheres
      (load_swc_file ["1 1 0.0 0.0 0.0 1.0 -1"; "2 3 1.0 0.0 0.0 0.5 1"] blank).2
    = (Ok (verts, faces),
       (load_swc_file ["1 1 0.0 0.0 0.0 1.0 -1"; "2 3 1.0 0.0 0.0 0.5 1"] blank).2)
    ∧ length faces = 2%nat
    ∧ take 4 (drop 4 verts)
      = [[0.75; -0.25; 0]; [0.75; 0.25; 0]; [1.25; 0.25; 0]; [1.25; -0.25; 0]]%float.
Proof.
  destruct (markers_aligned_distinct_ids
              ["1 1 0.0 0.0 0.0 1.0 -1"; "2 3 1.0 0.0 0.0 0.5 1"]
              [node_dict 1 1 0 0 0 1 (-1); node_dict 2 3 1 0 0 0.5 1]
              blank
              [(1, node_dict 1 1 0 0 0 1 (-1)); (2, node_dict 2 3 1 0 0 0.5 1)]
              (load_swc_file
                 ["1 1 0.0 0.0 0.0 1.0 -1"; "2 3 1.0 0.0 0.0 0.5 1"] blank).2)
    as (verts & faces & Hs & Hlen & Hface).
  - vm_compute. reflexivity.
  - vm_compute. reflexivity.
  - apply (bool_decide_eq_true_1 _). vm_compute. reflexivity.
  - exists verts, faces. split_and!; [exact Hs | exact Hlen |].
    destruct (Hface 1%nat [1; 0; 0]%float eq_refl)
      as (data & Hn & _ & _ & Hq & _).
    vm_compute in Hn. injection Hn as _ <-. exact Hq.
Defined.

Lemma edges_follow_table_witness :
  edges (load_swc_file
           ["1 1 0.0 0.0 0.0 1.0 -1"; "2 3 1.0 0.0 0.0 0.5 1"] blank).2
  = omap (resolved_edge
            (index_from_id
               (load_swc_file
                  ["1 1 0.0 0.0 0.0 1.0 -1"; "2 3 1.0 0.0 0.0 0.5 1"] blank).2))
      (nodes (load_swc_file
                ["1 1 0.0 0.0 0.0 1.0 -1"; "2 3 1.0 0.0 0.0 0.5 1"] blank).2).
Proof.
  apply (edges_follow_table
           ["1 1 0.0 0.0 0.0 1.0 -1"; "2 3 1.0 0.0 0.0 0.5 1"]
           [node_dict 1 1 0 0 0 1 (-1); node_dict 2 3 1 0 0 0.5 1]
           blank
           [(1, node_dict 1 1 0 0 0 1 (-1)); (2, node_dict 2 3 1 0 0 0.5 1)]).
  - vm_compute. reflexivity.
  - vm_compute. reflexivity.
Defined.

(** The scenario of two lines: vertices, edges, and the table order. *)
Example two_line_scenario :
  let s := (load_swc_file
              ["1 1 0.0 0.0 0.0 1.0 -1"; "2 3 1.0 0.0 0.0 0.5 1"] blank).2 in
  vertices s = [[0; 0; 0]; [1; 0; 0]]%float
  ∧ edges s = [(1, 0)%nat]
  ∧ dict_keys (nodes s) = [1; 2].
Proof. vm_compute. split_and!; reflexivity. Qed.

(** The value [-1] is an id like any other: a record with id [-1] is the
    parent of the records whose parent id is [-1]. *)
Example sentinel_is_an_ordinary_id :
  edges (load_swc_file ["-1 1 0 0 0 1 7"; "2 1 1 0 0 1 -1"] blank).2
  = [(1, 0)%nat].
Proof. vm_compute. reflexivity. Qed.

(** Edges come in table order, not in index order: the table lists id 5
    before id 6, and their indices are 2 and 1. *)
Example edges_in_table_order :
  edges (load_swc_file
           ["5 1 0 0 0 1 6"; "6 1 1 0 0 1 5"; "5 1 2 0 0 1 6"] blank).2
  = [(2, 1)%nat; (1, 2)%nat].
Proof. vm_compute. reflexivity. Qed.

Lemma forest_edge_count_witness :
  length (edges (load_swc_file
                   ["1 1 0 0 0 1 -1"; "2 1 1 0 0 1 1"; "3 1 2 0 0 1 1";
                    "4 1 5 5 5 1 -1"] blank).2)
  = 2%nat.
Proof.
  rewrite (forest_edge_count
             ["1 1 0 0 0 1 -1"; "2 1 1 0 0 1 1"; "3 1 2 0 0 1 1";
              "4 1 5 5 5 1 -1"] blank
             [(1, node_dict 1 1 0 0 0 1 (-1)); (2, node_dict 2 1 1 0 0 1 1);
              (3, node_dict 3 1 2 0 0 1 1); (4, node_dict 4 1 5 5 5 1 (-1))]).
  - vm_compute. reflexivity.
  - vm_compute. reflexivity.
  - apply (bool_decide_eq_true_1 _). vm_compute. reflexivity.
  - vm_compute. reflexivity.
  - vm_compute. reflexivity.
Defined.

Lemma forward_reference_resolves_witness :
  (0, 1)%nat ∈ edges (load_swc_file
                        ["2 1 1 0 0 1 1"; "1 1 0 0 0 1 -1"] blank).2.
Proof.
  destruct (forward_reference_resolves
              ["2 1 1 0 0 1 1"; "1 1 0 0 0 1 -1"]
              [node_dict 2 1 1 0 0 1 1; node_dict 1 1 0 0 0 1 (-1)]
              blank
              [(2, node_dict 2 1 1 0 0 1 1); (1, node_dict 1 1 0 0 0 1 (-1))]
              (load_swc_file ["2 1 1 0 0 1 1"; "1 1 0 0 0 1 -1"] blank).2
              0%nat 1%nat
              (node_dict 2 1 1 0 0 1 1) (node_dict 1 1 0 0 0 1 (-1)))
    as (v1 & v2 & H1 & H2 & _ & He).
  - vm_compute. reflexivity.
  - vm_compute. reflexivity.
  - reflexivity.
  - reflexivity.
  - lia.
  - reflexivity.
  - vm_compute. reflexivity.
  - vm_compute in H1, H2. injection H1 as <-. injection H2 as <-. exact He.
Defined.

(** C7, as stated, fails when a later line reuses the child's id: the
    record on line 0 names id 1 as parent and the record carrying id 1 is
    on line 1, but line 2 overwrites the table entry of id 2 with a record
    whose parent id is absent, so no edge is emitted at all. *)
Lemma forward_reference_counterexample :
  parse_lines ["2 1 1 0 0 1 1"; "1 1 0 0 0 1 -1"; "2 1 5 5 5 1 -1"]
  = Ok [node_dict 2 1 1 0 0 1 1; node_dict 1 1 0 0 0 1 (-1);
        node_dict 2 1 5 5 5 1 (-1)]
  ∧ parent_id (node_dict 2 1 1 0 0 1 1) = id (node_dict 1 1 0 0 0 1 (-1))
  ∧ index_from_id
      (load_swc_file
         ["2 1 1 0 0 1 1"; "1 1 0 0 0 1 -1"; "2 1 5 5 5 1 -1"] blank).2 !! 2
    = Some 2%nat
  ∧ index_from_id
      (load_swc_file
         ["2 1 1 0 0 1 1"; "1 1 0 0 0 1 -1"; "2 1 5 5 5 1 -1"] blank).2 !! 1
    = Some 1%nat
  ∧ edges
      (load_swc_file
         ["2 1 1 0 0 1 1"; "1 1 0 0 0 1 -1"; "2 1 5 5 5 1 -1"] blank).2
    = [].
Proof. split_and!; vm_compute; reflexivity. Qed.

Lemma extra_fields_ignored_witness :
  parse_line "1 1 0 0 0 1 -1 soma 0.5"
  = Ok (Some (node_dict 1 1 0 0 0 1 (-1))).
Proof.
  destruct (extra_fields_ignored "1 1 0 0 0 1 -1 soma 0.5"
              "1" "1" "0" "0" "0" "1" "-1" ["soma"; "0.5"])
    as [_ ->].
  - reflexivity.
  - vm_compute. reflexivity.
  - discriminate.
  - vm_compute. reflexivity.
Defined.

Lemma first_node_frozen_witness :
  ∃ s, load_swc_file
         ["5 1 0 0 0 1 -1"; "6 1 1 1 1 1 5"; "5 1 9 9 9 2 -1"] blank
       = (Ok (nodes s), s)
       ∧ first_node s = Some (node_dict 5 1 0 0 0 1 (-1))
       ∧ dict_get 5 (nodes s) = Some (node_dict 5 1 9 9 9 2 (-1)).
Proof.
  apply (first_node_frozen
           ["5 1 0 0 0 1 -1"; "6 1 1 1 1 1 5"; "5 1 9 9 9 2 -1"]
           [node_dict 6 1 1 1 1 1 5; node_dict 5 1 9 9 9 2 (-1)]
           blank (node_dict 5 1 0 0 0 1 (-1)) 1%nat
           (node_dict 5 1 9 9 9 2 (-1))).
  - vm_compute. reflexivity.
  - reflexivity.
  - reflexivity.
  - intros [|[|j']] c Hj Hc; [lia | lia | discriminate Hc].
Defined.

Lemma skipped_or_fatal_line_witness :
  load_swc_file ["1 1 0 0 0 1 -1"; "1 1 0 0 0 1"; "3 1 1 0 0 1 1"] blank
  = load_swc_file ["1 1 0 0 0 1 -1"; "3 1 1 0 0 1 1"] blank
  ∧ (load_swc_file ["1 1 0 0 0 1 -1"; "2 1 0 abc 0 1 1"; "3 1 1 0 0 1 1"]
       blank).1
    = Raise (ValueError_float "abc").
Proof.
  split.
  - apply (skipped_or_fatal_line ["1 1 0 0 0 1 -1"] "1 1 0 0 0 1"
             ["3 1 1 0 0 1 1"] [node_dict 1 1 0 0 0 1 (-1)] blank).
    + vm_compute. reflexivity.
    + right. vm_compute. lia.
  - destruct (skipped_or_fatal_line ["1 1 0 0 0 1 -1"] "2 1 0 abc 0 1 1"
                ["3 1 1 0 0 1 1"] [node_dict 1 1 0 0 0 1 (-1)] blank)
      as [_ Hfatal].
    + vm_compute. reflexivity.
    + destruct (Hfatal eq_refl) with (i := 3%nat) (tok := "abc")
        (e := ValueError_float "abc") as (_ & _ & Hl).
      * vm_compute. lia.
      * lia.
      * vm_compute. reflexivity.
      * vm_compute. reflexivity.
      * intros [|[|[|j]]] tok' Hj Htok; [| | | lia];
          vm_compute in Htok; injection Htok as <-; vm_compute; reflexivity.
      * cbn [app] in Hl. by rewrite Hl.
Defined.

(** C5, as stated, fails: the exception of a failed conversion does not
    determine the number or the text of the offending line.  Two files
    whose offending lines differ in both raise the same exception. *)
Lemma error_line_counterexample :
  ¬ ∃ describe : exn → nat * string,
      ∀ pre line post rs e,
        parse_lines pre = Ok rs →
        parse_line line = Raise e →
        (load_swc_file (pre ++ line :: post) blank).1 = Raise e →
        describe e = (length pre, line).
Proof.
  intros [describe Hd].
  assert (describe (ValueError_int "x") = (0%nat, "x 1 0 0 0 1 -1")) as E1
    by (apply (Hd [] "x 1 0 0 0 1 -1" [] []); vm_compute; reflexivity).
  assert (describe (ValueError_int "x") = (1%nat, "x 2 5 5 5 5 5")) as E2
    by (apply (Hd ["# c"] "x 2 5 5 5 5 5" [] []); vm_compute; reflexivity).
  rewrite E1 in E2. discriminate E2.
Qed.

(** The two boundary lines: six fields are skipped, a non-numeric field
    3 is fatal. *)
Example six_fields_skipped : parse_line "1 1 0 0 0 1" = Ok None.
Proof. vm_compute. reflexivity. Qed.

Example field_three_abc : parse_line "1 1 0 abc 0 1 -1" = Raise (ValueError_float "abc").
Proof. vm_compute. reflexivity. Qed.

(** * Further runs and properties with the CPython conversions *)

Lemma startswith_hash tok :
  startswith tok "#" = true → ∃ tok', tok = String "#" tok'.
Proof.
  unfold startswith. destruct tok as [|c tok]; cbn [String.prefix]; [done|].
  destruct (ascii_dec "#" c) as [<-|]; [eauto | done].
Qed.

(** X17: a comment is recognised only at the very start of the line.
    A line whose [#] comes after leading whitespace is split like a data
    line; when it has seven fields or more, [int] is applied to its first
    field, which starts with [#], and the import is aborted. *)
Theorem indented_comment_raises line f0 rest :
  startswith line "#" = false →
  split line = f0 :: rest → (6 ≤ length rest)%nat →
  startswith f0 "#" = true →
  parse_line line = Raise (ValueError_int f0).
Proof.
  intros Hc Hf Hlen (tok & ->)%startswith_hash.
  apply (parse_line_first_failure line 0 (String "#" tok)); try done.
  - rewrite Hf. simpl. lia.
  - lia.
  - by rewrite Hf.
  - intros j tok' Hj. lia.
Qed.

Lemma indented_comment_raises_witness :
  parse_line "  # id type x y z radius parent"
  = Raise (ValueError_int "#").
Proof.
  apply (indented_comment_raises _ "#"
           ["id"; "type"; "x"; "y"; "z"; "radius"; "parent"]).
  - reflexivity.
  - vm_compute. reflexivity.
  - simpl. lia.
  - reflexivity.
Defined.

Lemma split_first_token_witness :
  split "1	 2
" = "1" :: split "	 2
".
Proof.
  apply (split_first_token "" "1" "	 2
").
  - reflexivity.
  - discriminate.
  - reflexivity.
  - right. eexists _, _. split; reflexivity.
Defined.

Lemma neuron_name_of_path_witness :
  _neuron_name "/home/user/cell_01.v2.swc" = "cell_01.v2".
Proof.
  apply (neuron_name_of_path "/home/user/" "cell_01.v2" "swc").
  - right. by exists "/home/user".
  - reflexivity.
  - reflexivity.
  - reflexivity.
Defined.

Lemma index_points_at_entry_vertex_witness :
  ∃ data, dict_get 2 (nodes (load_swc_file sample_file blank).2) = Some data
          ∧ id data = 2
          ∧ vertices (load_swc_file sample_file blank).2 !! 1%nat
            = Some (xyz data)
          ∧ length (xyz data) = 3%nat.
Proof.
  destruct (index_points_at_entry_vertex sample_file blank
              (nodes (load_swc_file sample_file blank).2)
              (load_swc_file sample_file blank).2) as [_ Hidx].
  - vm_compute. reflexivity.
  - apply Hidx. vm_compute. reflexivity.
Defined.

Lemma edges_link_child_to_parent_witness :
  ∃ c p, sample_records !! 2%nat = Some c ∧ sample_records !! 1%nat = Some p
         ∧ parent_id c = id p
         ∧ dict_get (id c) (nodes (load_swc_file sample_file blank).2) = Some c
         ∧ dict_get (id p) (nodes (load_swc_file sample_file blank).2) = Some p
         ∧ (2 < length (vertices (load_swc_file sample_file blank).2))%nat
         ∧ (1 < length (vertices (load_swc_file sample_file blank).2))%nat.
Proof.
  apply (edges_link_child_to_parent sample_file sample_records blank
           (nodes (load_swc_file sample_file blank).2)).
  - vm_compute. reflexivity.
  - vm_compute. reflexivity.
  - vm_compute. right. left.
Defined.

Lemma one_edge_per_entry_witness :
  NoDup (fst <$> edges (load_swc_file sample_file blank).2)
  ∧ (length (edges (load_swc_file sample_file blank).2)
     ≤ length (nodes (load_swc_file sample_file blank).2))%nat.
Proof.
  apply (one_edge_per_entry sample_file blank
           (nodes (load_swc_file sample_file blank).2)).
  vm_compute. reflexivity.
Defined.

Lemma no_loop_edge_without_self_parent_witness : 2%nat ≠ 1%nat.
Proof.
  apply (no_loop_edge_without_self_parent sample_file blank
           (nodes (load_swc_file sample_file blank).2)
           (load_swc_file sample_file blank).2).
  - vm_compute. reflexivity.
  - vm_compute. reflexivity.
  - vm_compute. right. left.
Defined.

Lemma table_size_and_vertices_witness :
  length (vertices (load_swc_file sample_file blank).2) = 3%nat
  ∧ (length (nodes (load_swc_file sample_file blank).2)
     = length (vertices (load_swc_file sample_file blank).2)
     ↔ NoDup (id <$> sample_records)).
Proof.
  destruct (table_size_and_vertices sample_file sample_records blank
              (nodes (load_swc_file sample_file blank).2)
              (load_swc_file sample_file blank).2)
    as (_ & _ & Hlen & _ & Hiff).
  - vm_compute. reflexivity.
  - vm_compute. reflexivity.
  - split; [exact Hlen | exact Hiff].
Defined.

Lemma load_concatenation_witness :
  index_from_id
    (load_swc_file (["1 1 0 0 0 2 -1"; "2 3 1 0 0 1 1"]
                    ++ ["3 3 2 0 0 1 2"; "2 3 5 5 5 1 3"]) blank).2 !! 2
  = Some 3%nat.
Proof.
  destruct (load_concatenation
              ["1 1 0 0 0 2 -1"; "2 3 1 0 0 1 1"]
              ["3 3 2 0 0 1 2"; "2 3 5 5 5 1 3"]
              [node_dict 1 1 0 0 0 2 (-1); node_dict 2 3 1 0 0 1 1]
              [node_dict 3 3 2 0 0 1 2; node_dict 2 3 5 5 5 1 3]
              blank 2) as (_ & Hidx & _).
  - vm_compute. reflexivity.
  - vm_compute. reflexivity.
  - rewrite Hidx. vm_compute. reflexivity.
Defined.

Lemma failed_load_state_witness :
  edges (load_swc_file ["1 1 0 0 0 2 -1"; "2 3 1 0 0 one 1"]
           (load_swc_file sample_file blank).2).2
  = [(1, 0)%nat; (2, 1)%nat]
  ∧ length (vertices (load_swc_file ["1 1 0 0 0 2 -1"; "2 3 1 0 0 one 1"]
                        (load_swc_file sample_file blank).2).2)
    = 1%nat.
Proof.
  destruct (failed_load_state ["1 1 0 0 0 2 -1"; "2 3 1 0 0 one 1"]
              (load_swc_file sample_file blank).2
              (ValueError_float "one")) as (He & Hv & _).
  - vm_compute. reflexivity.
  - rewrite He, Hv. split; vm_compute; reflexivity.
Defined.

Lemma create_skeleton_after_load_witness :
  (create_skeleton (load_swc_file sample_file blank).2).1
  = Ok (Some ([[0; 0; 0]; [1; 0; 0]; [2; 0; 0]]%float,
              [(1, 0)%nat; (2, 1)%nat])).
Proof.
  rewrite (create_skeleton_after_load sample_file sample_records blank
             (nodes (load_swc_file sample_file blank).2)).
  - vm_compute. reflexivity.
  - vm_compute. reflexivity.
  - vm_compute. reflexivity.
Defined.

Lemma create_node_spheres_shape_witness :
  ∃ verts faces,
    (create_node_spheres (load_swc_file sample_file blank).2).1
    = Ok (verts, faces)
    ∧ length verts = 12%nat
    ∧ faces = [[0; 1; 2; 3]; [4; 5; 6; 7]; [8; 9; 10; 11]]%nat.
Proof.
  destruct (create_node_spheres_shape sample_file blank
              (nodes (load_swc_file sample_file blank).2)
              (load_swc_file sample_file blank).2)
    as (verts & faces & Hs & Hlen & _ & Hfaces & _).
  - vm_compute. reflexivity.
  - exists verts, faces. rewrite Hs, Hlen, Hfaces.
    split_and!; [reflexivity | vm_compute; reflexivity..].
Defined.

Lemma marker_centred_at_indexed_vertex_witness :
  ∃ verts faces i v,
    create_node_spheres
      (load_swc_file ["5 1 0 0 0 1 -1"; "5 1 9 9 9 2 -1"] blank).2
    = (Ok (verts, faces),
       (load_swc_file ["5 1 0 0 0 1 -1"; "5 1 9 9 9 2 -1"] blank).2)
    ∧ index_from_id
        (load_swc_file ["5 1 0 0 0 1 -1"; "5 1 9 9 9 2 -1"] blank).2 !! 5
      = Some i
    ∧ vertices
        (load_swc_file ["5 1 0 0 0 1 -1"; "5 1 9 9 9 2 -1"] blank).2 !! i
      = Some v
    ∧ take 4 (drop (4 * 0) verts)
      = square_face v (fmul f_half (radius (node_dict 5 1 9 9 9 2 (-1)))).
Proof.
  apply (marker_centred_at_indexed_vertex
           ["5 1 0 0 0 1 -1"; "5 1 9 9 9 2 -1"] blank
           [(5, node_dict 5 1 9 9 9 2 (-1))]
           (load_swc_file ["5 1 0 0 0 1 -1"; "5 1 9 9 9 2 -1"] blank).2
           0%nat 5 (node_dict 5 1 9 9 9 2 (-1))).
  - vm_compute. reflexivity.
  - vm_compute. reflexivity.
Defined.

Lemma execute_without_data_line_witness :
  ∃ s, execute ["# only a comment"; ""; "1 2 3"] blank
       = (Raise AttributeError, s)
       ∧ load_swc_file ["# only a comment"; ""; "1 2 3"] blank = (Ok [], s)
       ∧ nodes s = [] ∧ vertices s = [] ∧ edges s = []
       ∧ first_node s = None.
Proof.
  apply (execute_without_data_line ["# only a comment"; ""; "1 2 3"] blank).
  repeat (constructor;
          [first [left; reflexivity | right; vm_compute; lia]|]).
  constructor.
Defined.

Lemma execute_with_data_witness :
  ∃ s verts faces,
    execute sample_file blank
    = (Ok ((vertices s, edges s), (verts, faces)), s)
    ∧ load_swc_file sample_file blank = (Ok (nodes s), s)
    ∧ length (vertices s) = length sample_records
    ∧ length verts = (4 * length (nodes s))%nat
    ∧ length faces = length (nodes s).
Proof.
  apply (execute_with_data sample_file sample_records blank).
  - vm_compute. reflexivity.
  - discriminate.
Defined.

Lemma execute_no_lookup_error_witness :
  (execute ["1 1 0 0 0 2 -1"; "2 3 1 0 0 one 1"] blank).1
  = Raise (ValueError_float "one").
Proof.
  destruct (execute_no_lookup_error
              ["1 1 0 0 0 2 -1"; "2 3 1 0 0 one 1"] blank)
    as (_ & _ & _ & Hprop).
  rewrite (Hprop (ValueError_float "one")); [reflexivity|].
  vm_compute. reflexivity.
Defined.

Lemma load_swc_file_subscripts_safe_witness :
  ∃ line, line ∈ ["1 1 0 0 0 2 -1"; "2 3 1 0 0 one 1"]
          ∧ "one" ∈ take 7 (split line).
Proof.
  destruct (load_swc_file_subscripts_safe
              ["1 1 0 0 0 2 -1"; "2 3 1 0 0 one 1"] blank)
    as (_ & _ & Htok).
  apply Htok. right. vm_compute. reflexivity.
Defined.

Lemma split_fields_clean_witness :
  Forall (λ f, f ≠ "" ∧ no_space f = true) (split " 	
")
  ∧ split " 	
" = [].
Proof.
  destruct (split_fields_clean " 	
") as [Hf Hb].
  split; [exact Hf | apply Hb; reflexivity].
Defined.
